(** * idfine-chatbot widget: transport and streaming-message protocol

    A shallow embedding of [widget/src/WebSocketClient.ts] (the Connection
    Manager) and of the protocol part of [widget/src/ChatWidget.ts] (the
    Streaming Session Controller), with the properties of the specification
    stated and settled against them.

    Conventions.
    - A JavaScript string is the list of its UTF-16 code units; [===] on
      strings is equality of these lists, [+] is [++], [length] is [length]
      and [substring(0, i)] is [take i].
    - The class fields keep their names.  What the host (the browser) owns
      -- the sockets and their [readyState], the pending timers, the DOM of
      the message list -- is carried in the same record, after the fields.
    - Every handler is a function from state to state.  What leaves the
      component (transport writes, timers armed, DOM writes on message
      bubbles, [fetch] calls) is recorded in a log, newest entry first. *)

From Stdlib Require Import ZArith NArith QArith Qround String Ascii DecimalString Lia.
From Stdlib Require Import ssreflect.
From stdpp Require Import base list option numbers gmap.
Close Scope Q_scope.
#[local] Set Warnings "-rewrite-rw,-clear-no-such-hyp".

(** ** JavaScript values *)

Module JS.

Abbreviation jsstring := (list N) (only parsing).

(** An ASCII literal as a JavaScript string. *)
Definition js (s : string) : jsstring := N_of_ascii <$> list_ascii_of_string s.

(** [Number.prototype.toString] on an integer. *)
Definition toString (z : Z) : jsstring := js (NilZero.string_of_int (Z.to_int z)).

(** Truthiness of a string: every string but the empty one. *)
Definition truthy (s : jsstring) : bool :=
  match s with [] => false | _ :: _ => true end.

(** [x || undefined] for a string [x]. *)
Definition orUndefined (s : jsstring) : option jsstring :=
  if truthy s then Some s else None.

(** Truthiness of an optional string ([undefined] is falsy). *)
Definition truthyOpt (o : option jsstring) : bool :=
  match o with Some s => truthy s | None => false end.

(** ECMAScript WhiteSpace and LineTerminator code points, the characters
    [String.prototype.trim] strips. *)
Definition isWhiteSpace (c : N) : bool :=
  bool_decide (c ∈ [9; 10; 11; 12; 13; 32; 160; 5760; 8232; 8233; 8239; 8287;
                    12288; 65279]%N)
  || ((8192 <=? c)%N && (c <=? 8202)%N).

Fixpoint trimStart (s : jsstring) : jsstring :=
  match s with
  | c :: s' => if isWhiteSpace c then trimStart s' else s
  | [] => []
  end.

Definition trimEnd (s : jsstring) : jsstring := reverse (trimStart (reverse s)).

Definition trim (s : jsstring) : jsstring := trimEnd (trimStart s).

(** [s.replace(/^http/, "ws")]. *)
Definition replaceHttpPrefix (s : jsstring) : jsstring :=
  match s with
  | 104 :: 116 :: 116 :: 112 :: rest => js "ws" ++ rest
  | _ => s
  end%N.

End JS.

Import JS.

(** ** types.ts *)

Record Source := {
  document : jsstring;
  chunk_index : Z;
  score : Q   (* a JSON number; it is only copied *)
}.

Inductive Role := user | assistant | system.

#[export] Instance Role_eq_dec : EqDecision Role.
Proof. solve_decision. Defined.

Module ChatMessage.
Record t := mk {
  id : jsstring;
  role : Role;
  content : jsstring;
  sources : option (list Source);
  intent : option jsstring;
  timestamp : Z;
  isStreaming : option bool
}.
End ChatMessage.

(** The [type] discriminator of an outbound message:
    ["message" | "ping" | "typing"]. *)
Inductive WSMessageType := TMessage | TPing | TTyping.

Module WSMessage.
Record t := mk {
  type : WSMessageType;
  content : option jsstring;
  conversation_id : option jsstring
}.
End WSMessage.

Inductive SystemEvent := escalated | agent_joined | agent_left.

(** [WSIncoming], the union of the five inbound shapes.  [WSOther] stands
    for a parsed JSON value whose [type] is none of the five: the [switch]
    of [handleWSMessage] has no case for it. *)
Inductive WSIncoming :=
| WSStreamStart (message_id : jsstring)
| WSStreamChunk (content message_id : jsstring)
| WSStreamEnd (message_id : jsstring) (conversation_id : option jsstring)
              (sources : list Source) (intent : jsstring)
| WSError (message : jsstring)
| WSSystem (content : jsstring) (event : option SystemEvent)
| WSOther.

(** ** WebSocketClient.ts *)

Module WebSocketClient.

(** [WebSocket.readyState]. *)
Inductive ReadyState := CONNECTING | OPEN | CLOSING | CLOSED.

#[export] Instance ReadyState_eq_dec : EqDecision ReadyState.
Proof. solve_decision. Defined.

(** What the client does to its host and to its owner. *)
Inductive Output :=
| NewWebSocket (url : jsstring)               (* new WebSocket(url) *)
| SocketSend (sock : nat) (m : WSMessage.t)   (* ws.send(JSON.stringify(m)) *)
| SocketClose (sock : nat)                    (* ws.close() *)
| SetTimeout (h : positive) (delay : N)
| SetInterval (h : positive) (period : N)
| OnMessage (data : WSIncoming)               (* this.onMessage(data) *)
| OnOpen                                      (* this.onOpen() *)
| OnClose.                                    (* this.onClose() *)

(** The fields of the class, then the host side: [sockets] lists the
    [readyState] of every socket this client created (a socket is named by
    its index), [timeouts] and [intervals] are the armed timers, named by
    their handles, which the host draws from a single counter and which are
    positive integers (hence truthy). *)
Record t := mk {
  url : jsstring;
  sessionId : jsstring;
  sourceGroupId : option jsstring;
  ws : option nat;
  reconnectAttempts : N;
  maxReconnectAttempts : N;
  reconnectTimeout : option positive;
  pingInterval : option positive;
  sockets : list ReadyState;
  timeouts : gset positive;
  intervals : gset positive;
  nextHandle : positive;
  out : list Output
}.

(** [new WebSocketClient(url, sessionId, onMessage, onOpen, onClose, sourceGroupId)]. *)
Definition new (url sessionId : jsstring) (sourceGroupId : option jsstring) : t :=
  {| url := url; sessionId := sessionId; sourceGroupId := sourceGroupId;
     ws := None; reconnectAttempts := 0; maxReconnectAttempts := 5;
     reconnectTimeout := None; pingInterval := None;
     sockets := []; timeouts := ∅; intervals := ∅; nextHandle := 1;
     out := [] |}.

Definition set_ws (v : option nat) (c : t) : t :=
  mk (url c) (sessionId c) (sourceGroupId c) v (reconnectAttempts c)
     (maxReconnectAttempts c) (reconnectTimeout c) (pingInterval c)
     (sockets c) (timeouts c) (intervals c) (nextHandle c) (out c).

Definition set_reconnectAttempts (v : N) (c : t) : t :=
  mk (url c) (sessionId c) (sourceGroupId c) (ws c) v
     (maxReconnectAttempts c) (reconnectTimeout c) (pingInterval c)
     (sockets c) (timeouts c) (intervals c) (nextHandle c) (out c).

Definition set_maxReconnectAttempts (v : N) (c : t) : t :=
  mk (url c) (sessionId c) (sourceGroupId c) (ws c) (reconnectAttempts c)
     v (reconnectTimeout c) (pingInterval c)
     (sockets c) (timeouts c) (intervals c) (nextHandle c) (out c).

Definition set_reconnectTimeout (v : option positive) (c : t) : t :=
  mk (url c) (sessionId c) (sourceGroupId c) (ws c) (reconnectAttempts c)
     (maxReconnectAttempts c) v (pingInterval c)
     (sockets c) (timeouts c) (intervals c) (nextHandle c) (out c).

Definition set_pingInterval (v : option positive) (c : t) : t :=
  mk (url c) (sessionId c) (sourceGroupId c) (ws c) (reconnectAttempts c)
     (maxReconnectAttempts c) (reconnectTimeout c) v
     (sockets c) (timeouts c) (intervals c) (nextHandle c) (out c).

Definition set_sockets (v : list ReadyState) (c : t) : t :=
  mk (url c) (sessionId c) (sourceGroupId c) (ws c) (reconnectAttempts c)
     (maxReconnectAttempts c) (reconnectTimeout c) (pingInterval c)
     v (timeouts c) (intervals c) (nextHandle c) (out c).

Definition set_timeouts (v : gset positive) (c : t) : t :=
  mk (url c) (sessionId c) (sourceGroupId c) (ws c) (reconnectAttempts c)
     (maxReconnectAttempts c) (reconnectTimeout c) (pingInterval c)
     (sockets c) v (intervals c) (nextHandle c) (out c).

Definition set_intervals (v : gset positive) (c : t) : t :=
  mk (url c) (sessionId c) (sourceGroupId c) (ws c) (reconnectAttempts c)
     (maxReconnectAttempts c) (reconnectTimeout c) (pingInterval c)
     (sockets c) (timeouts c) v (nextHandle c) (out c).

Definition set_nextHandle (v : positive) (c : t) : t :=
  mk (url c) (sessionId c) (sourceGroupId c) (ws c) (reconnectAttempts c)
     (maxReconnectAttempts c) (reconnectTimeout c) (pingInterval c)
     (sockets c) (timeouts c) (intervals c) v (out c).

Definition emit (o : Output) (c : t) : t :=
  mk (url c) (sessionId c) (sourceGroupId c) (ws c) (reconnectAttempts c)
     (maxReconnectAttempts c) (reconnectTimeout c) (pingInterval c)
     (sockets c) (timeouts c) (intervals c) (nextHandle c) (o :: out c).

(** *** Host primitives *)

(** [setTimeout(cb, delay)]: arms a timer and returns its handle. *)
Definition setTimeout (delay : N) (c : t) : positive * t :=
  let h := nextHandle c in
  (h, emit (SetTimeout h delay)
        (set_nextHandle (Pos.succ h) (set_timeouts ({[h]} ∪ timeouts c) c))).

(** [clearTimeout(h)]: a handle that is not armed is ignored. *)
Definition clearTimeout (h : positive) (c : t) : t :=
  set_timeouts (timeouts c ∖ {[h]}) c.

Definition setInterval (period : N) (c : t) : positive * t :=
  let h := nextHandle c in
  (h, emit (SetInterval h period)
        (set_nextHandle (Pos.succ h) (set_intervals ({[h]} ∪ intervals c) c))).

Definition clearInterval (h : positive) (c : t) : t :=
  set_intervals (intervals c ∖ {[h]}) c.

(** [sock.close()]: a socket that is connecting or open starts closing; on a
    socket that is closing or closed the call does nothing. *)
Definition socketClose (k : nat) (c : t) : t :=
  match sockets c !! k with
  | Some CONNECTING | Some OPEN =>
      emit (SocketClose k) (set_sockets (<[k := CLOSING]> (sockets c)) c)
  | _ => emit (SocketClose k) c
  end.

(** *** Methods *)

(** [connect()]: lines 32-61.  The four handlers installed on the new socket
    are [onopen], [onmessage], [onclose] and [onerror] below; they close over
    [this] only, so every socket of the client carries the same ones. *)
Definition connect (c : t) : t :=
  let wsUrl := replaceHttpPrefix (url c) in
  let sgParam := if truthyOpt (sourceGroupId c)
                 then js "?sg=" ++ default [] (sourceGroupId c) else [] in
  let k := length (sockets c) in
  set_ws (Some k)
    (set_sockets (sockets c ++ [CONNECTING])
       (emit (NewWebSocket (wsUrl ++ js "/ws/widget/" ++ sessionId c ++ sgParam)) c)).

(** [send(message)]: lines 63-67. *)
Definition send (m : WSMessage.t) (c : t) : t :=
  match ws c with
  | Some k => if bool_decide (sockets c !! k = Some OPEN)
              then emit (SocketSend k m) c else c
  | None => c
  end.

(** [get isConnected()]: lines 79-81. *)
Definition isConnected (c : t) : bool :=
  match ws c with
  | Some k => bool_decide (sockets c !! k = Some OPEN)
  | None => false
  end.

(** [startPing()]: lines 94-98. *)
Definition startPing (c : t) : t :=
  let '(h, c) := setInterval 30000 c in
  set_pingInterval (Some h) c.

(** [stopPing()]: lines 100-105. *)
Definition stopPing (c : t) : t :=
  match pingInterval c with
  | Some h => set_pingInterval None (clearInterval h c)
  | None => c
  end.

(** [tryReconnect()]: lines 83-92. *)
Definition tryReconnect (c : t) : t :=
  if (maxReconnectAttempts c <=? reconnectAttempts c)%N then c
  else
    let delay := N.min (1000 * 2 ^ reconnectAttempts c) 30000 in
    let c := set_reconnectAttempts (reconnectAttempts c + 1) c in
    let '(h, c) := setTimeout delay c in
    set_reconnectTimeout (Some h) c.

(** [disconnect()]: lines 69-77. *)
Definition disconnect (c : t) : t :=
  let c := set_maxReconnectAttempts 0 c in
  let c := stopPing c in
  let c := match reconnectTimeout c with
           | Some h => clearTimeout h c
           | None => c
           end in
  let c := match ws c with
           | Some k => socketClose k c
           | None => c
           end in
  set_ws None c.

(** *** Handlers installed by [connect] *)

(** [ws.onopen]: lines 37-41. *)
Definition onopen (c : t) : t :=
  emit OnOpen (startPing (set_reconnectAttempts 0 c)).

(** [ws.onmessage]: lines 43-50.  [payload] is the outcome of
    [JSON.parse(event.data)]; [None] is a parse error, which is swallowed. *)
Definition onmessage (payload : option WSIncoming) (c : t) : t :=
  match payload with
  | Some data => emit (OnMessage data) c
  | None => c
  end.

(** [ws.onclose]: lines 52-56. *)
Definition onclose (c : t) : t :=
  tryReconnect (emit OnClose (stopPing c)).

(** [ws.onerror]: lines 58-60. *)
Definition onerror (c : t) : t := c.

(** The timer callbacks: line 90 and line 96. *)
Definition reconnectCallback (c : t) : t := connect c.
Definition pingCallback (c : t) : t := send (WSMessage.mk TPing None None) c.

(** *** Host events

    The host delivers [open] to a socket that is connecting, [message] to a
    socket that is open, and [close] once to a socket that is not yet closed;
    it runs a timeout callback once if the timer is still armed, and an
    interval callback whenever the interval is armed.  An event that the host
    cannot deliver in the current state leaves the state unchanged. *)
Inductive Event :=
| EvOpen (k : nat)
| EvMessage (k : nat) (payload : option WSIncoming)
| EvError (k : nat)
| EvClose (k : nat)
| EvTimeout (h : positive)
| EvInterval (h : positive).

Definition step (e : Event) (c : t) : t :=
  match e with
  | EvOpen k =>
      match sockets c !! k with
      | Some CONNECTING => onopen (set_sockets (<[k := OPEN]> (sockets c)) c)
      | _ => c
      end
  | EvMessage k payload =>
      match sockets c !! k with
      | Some OPEN => onmessage payload c
      | _ => c
      end
  | EvError k => onerror c
  | EvClose k =>
      match sockets c !! k with
      | Some CLOSED | None => c
      | Some _ => onclose (set_sockets (<[k := CLOSED]> (sockets c)) c)
      end
  | EvTimeout h =>
      if bool_decide (h ∈ timeouts c)
      then reconnectCallback (clearTimeout h c) else c
  | EvInterval h =>
      if bool_decide (h ∈ intervals c) then pingCallback c else c
  end.

Definition run (es : list Event) (c : t) : t := foldl (λ c e, step e c) c es.

(** The delays passed to [setTimeout], oldest first. *)
Definition scheduledDelays (c : t) : list N :=
  reverse (omap (λ o, match o with SetTimeout _ d => Some d | _ => None end) (out c)).

(** The number of transports opened so far. *)
Definition opened (c : t) : nat := length (sockets c).

Definition isSend (o : Output) : bool :=
  match o with SocketSend _ _ => true | _ => false end.
Definition isSetTimeout (o : Output) : bool :=
  match o with SetTimeout _ _ => true | _ => false end.
Definition isNewWebSocket (o : Output) : bool :=
  match o with NewWebSocket _ => true | _ => false end.

(** The states the widget drives the client through before it shuts down:
    [connect()] once on a fresh client (ChatWidget.connectWS), then host
    events and [send] calls. *)
Inductive reachable : t → Prop :=
| reachable_connect url sid sg : reachable (connect (new url sid sg))
| reachable_step e c : reachable c → reachable (step e c)
| reachable_send m c : reachable c → reachable (send m c).

(** The timers that are armed are the ones the two handle fields hold. *)
Definition tracked (c : t) : Prop :=
  (∀ h, h ∈ timeouts c → reconnectTimeout c = Some h) ∧
  (∀ h, h ∈ intervals c → pingInterval c = Some h).

(** After [disconnect()]: the policy allows no attempt, there is no current
    transport and no reconnect timer is armed. *)
Definition shutDown (c : t) : Prop :=
  maxReconnectAttempts c = 0%N ∧ ws c = None ∧ timeouts c = ∅.

(** An output that is neither a transport write, nor a timer armed for a
    reconnect, nor a transport opened. *)
Definition quiet (o : Output) : Prop :=
  isSend o = false ∧ isSetTimeout o = false ∧ isNewWebSocket o = false.

(** At most one of: a socket that is not closed, an armed reconnect timer;
    and a ping interval is armed only while the current socket is open. *)
Definition singleLink (c : t) : Prop :=
  (∀ k st, sockets c !! k = Some st → st ≠ CLOSED →
     ws c = Some k ∧ timeouts c = ∅) ∧
  (∀ h, h ∈ intervals c → ∃ k, ws c = Some k ∧ sockets c !! k = Some OPEN).

(** *** Example states *)

(** A client that was connected, whose socket opened, and an event trace for
    it: the armed ping fires, the socket closes, the cancelled and the stale
    timers are tried, the closed socket is tried again. *)
Definition openClient : t :=
  step (EvOpen 0) (connect (new (js "https://h") (js "v1") None)).

Definition afterShutdown : list Event :=
  [EvInterval 1; EvMessage 0 (Some WSOther); EvClose 0; EvTimeout 1;
   EvTimeout 2; EvOpen 0; EvInterval 1; EvClose 0].

(** A client that lost its socket twice since it last opened. *)
Definition twiceDropped : t :=
  run [EvClose 0; EvTimeout 2; EvClose 1; EvTimeout 3] openClient.

(** *** Reading the log, further *)

(** The payloads handed to [onMessage], oldest first. *)
Definition forwarded (c : t) : list WSIncoming :=
  reverse (omap (λ o, match o with OnMessage d => Some d | _ => None end) (out c)).

(** The delay of a [setTimeout] in the log. *)
Definition delayOf (o : Output) : option N :=
  match o with SetTimeout _ d => Some d | _ => None end.

(** No socket is left that could deliver an event and no reconnect timer is
    armed. *)
Definition idle (c : t) : Prop :=
  (∀ k st, sockets c !! k = Some st → st = CLOSED) ∧ timeouts c = ∅.

(** A client whose five reconnect attempts have all been made without an
    open; its sixth socket is still connecting. *)
Definition fiveAttempts : t :=
  run [EvClose 0; EvTimeout 1; EvClose 1; EvTimeout 2; EvClose 2;
       EvTimeout 3; EvClose 3; EvTimeout 4; EvClose 4; EvTimeout 5]
    (connect (new (js "https://h") (js "v1") None)).


(** The socket [k] is open: the host delivers its messages. *)
Definition isOpen (k : nat) (c : t) : bool :=
  bool_decide (sockets c !! k = Some OPEN).


End WebSocketClient.

(** ** ChatWidget.ts *)

Module ChatWidget.

(** What the widget does to the message list of the page and to the network.
    An element [msg-<id>] is named by [<id>]. *)
Inductive Effect :=
| DomAppend (m : ChatMessage.t)              (* addMessage: the new row *)
| DomSetText (msgId text : jsstring)         (* el.textContent = text *)
| DomRender (msgId text : jsstring)          (* el.classList.remove("streaming");
                                                el.innerHTML = renderMarkdown(text) *)
| Fetch (content : jsstring) (conversation_id : option jsstring)
        (visitorId : jsstring).              (* POST /api/widget/message *)

(** The protocol fields of the class, then the part of the page they act on:
    the textarea and the send button, the typing indicator row, and the log
    of effects.  The fields that only drive the look of the widget
    ([isOpen], [isFullscreen], [logoUrl]) are left out. *)
Record t := mk {
  apiUrl : jsstring;
  sourceGroupId : option jsstring;
  welcomeMessage : jsstring;
  messages : list ChatMessage.t;
  ws : option WebSocketClient.t;
  visitorId : jsstring;
  conversationId : jsstring;
  isStreaming : bool;
  currentStreamId : jsstring;
  currentStreamContent : jsstring;
  textareaValue : jsstring;
  textareaDisabled : bool;
  sendBtnDisabled : bool;
  typingIndicator : bool;
  log : list Effect
}.

(** [new ChatWidget(hostElement, config)], before the session is set up. *)
Definition new (apiUrl : jsstring) (sourceGroupId : option jsstring)
    (welcomeMessage : jsstring) : t :=
  {| apiUrl := apiUrl; sourceGroupId := sourceGroupId;
     welcomeMessage := welcomeMessage;
     messages := []; ws := None; visitorId := []; conversationId := [];
     isStreaming := false; currentStreamId := []; currentStreamContent := [];
     textareaValue := []; textareaDisabled := false; sendBtnDisabled := false;
     typingIndicator := false; log := [] |}.

Definition set_welcomeMessage (v : jsstring) (s : t) : t :=
  mk (apiUrl s) (sourceGroupId s) v (messages s) (ws s) (visitorId s)
     (conversationId s) (isStreaming s) (currentStreamId s)
     (currentStreamContent s) (textareaValue s) (textareaDisabled s)
     (sendBtnDisabled s) (typingIndicator s) (log s).

Definition set_messages (v : list ChatMessage.t) (s : t) : t :=
  mk (apiUrl s) (sourceGroupId s) (welcomeMessage s) v (ws s) (visitorId s)
     (conversationId s) (isStreaming s) (currentStreamId s)
     (currentStreamContent s) (textareaValue s) (textareaDisabled s)
     (sendBtnDisabled s) (typingIndicator s) (log s).

Definition set_ws (v : option WebSocketClient.t) (s : t) : t :=
  mk (apiUrl s) (sourceGroupId s) (welcomeMessage s) (messages s) v (visitorId s)
     (conversationId s) (isStreaming s) (currentStreamId s)
     (currentStreamContent s) (textareaValue s) (textareaDisabled s)
     (sendBtnDisabled s) (typingIndicator s) (log s).

Definition set_visitorId (v : jsstring) (s : t) : t :=
  mk (apiUrl s) (sourceGroupId s) (welcomeMessage s) (messages s) (ws s) v
     (conversationId s) (isStreaming s) (currentStreamId s)
     (currentStreamContent s) (textareaValue s) (textareaDisabled s)
     (sendBtnDisabled s) (typingIndicator s) (log s).

Definition set_conversationId (v : jsstring) (s : t) : t :=
  mk (apiUrl s) (sourceGroupId s) (welcomeMessage s) (messages s) (ws s)
     (visitorId s) v (isStreaming s) (currentStreamId s)
     (currentStreamContent s) (textareaValue s) (textareaDisabled s)
     (sendBtnDisabled s) (typingIndicator s) (log s).

Definition set_isStreaming (v : bool) (s : t) : t :=
  mk (apiUrl s) (sourceGroupId s) (welcomeMessage s) (messages s) (ws s)
     (visitorId s) (conversationId s) v (currentStreamId s)
     (currentStreamContent s) (textareaValue s) (textareaDisabled s)
     (sendBtnDisabled s) (typingIndicator s) (log s).

Definition set_currentStreamId (v : jsstring) (s : t) : t :=
  mk (apiUrl s) (sourceGroupId s) (welcomeMessage s) (messages s) (ws s)
     (visitorId s) (conversationId s) (isStreaming s) v
     (currentStreamContent s) (textareaValue s) (textareaDisabled s)
     (sendBtnDisabled s) (typingIndicator s) (log s).

Definition set_currentStreamContent (v : jsstring) (s : t) : t :=
  mk (apiUrl s) (sourceGroupId s) (welcomeMessage s) (messages s) (ws s)
     (visitorId s) (conversationId s) (isStreaming s) (currentStreamId s)
     v (textareaValue s) (textareaDisabled s)
     (sendBtnDisabled s) (typingIndicator s) (log s).

Definition set_textareaValue (v : jsstring) (s : t) : t :=
  mk (apiUrl s) (sourceGroupId s) (welcomeMessage s) (messages s) (ws s)
     (visitorId s) (conversationId s) (isStreaming s) (currentStreamId s)
     (currentStreamContent s) v (textareaDisabled s)
     (sendBtnDisabled s) (typingIndicator s) (log s).

Definition set_textareaDisabled (v : bool) (s : t) : t :=
  mk (apiUrl s) (sourceGroupId s) (welcomeMessage s) (messages s) (ws s)
     (visitorId s) (conversationId s) (isStreaming s) (currentStreamId s)
     (currentStreamContent s) (textareaValue s) v
     (sendBtnDisabled s) (typingIndicator s) (log s).

Definition set_sendBtnDisabled (v : bool) (s : t) : t :=
  mk (apiUrl s) (sourceGroupId s) (welcomeMessage s) (messages s) (ws s)
     (visitorId s) (conversationId s) (isStreaming s) (currentStreamId s)
     (currentStreamContent s) (textareaValue s) (textareaDisabled s)
     v (typingIndicator s) (log s).

Definition set_typingIndicator (v : bool) (s : t) : t :=
  mk (apiUrl s) (sourceGroupId s) (welcomeMessage s) (messages s) (ws s)
     (visitorId s) (conversationId s) (isStreaming s) (currentStreamId s)
     (currentStreamContent s) (textareaValue s) (textareaDisabled s)
     (sendBtnDisabled s) v (log s).

Definition emit (e : Effect) (s : t) : t :=
  mk (apiUrl s) (sourceGroupId s) (welcomeMessage s) (messages s) (ws s)
     (visitorId s) (conversationId s) (isStreaming s) (currentStreamId s)
     (currentStreamContent s) (textareaValue s) (textareaDisabled s)
     (sendBtnDisabled s) (typingIndicator s) (e :: log s).

(** *** The message list and its elements *)

(** [this.messages.find((m) => m.id === messageId)]: the first match, with
    its index. *)
Definition findById (messageId : jsstring) (l : list ChatMessage.t)
    : option (nat * ChatMessage.t) :=
  list_find (λ m, ChatMessage.id m = messageId) l.

(** [this.shadow.getElementById(`msg-${messageId}`)] is non-null.  [addMessage]
    creates one element [msg-<id>] per message, for each of the three roles,
    and no element is ever removed from the message list, so the lookup
    succeeds exactly when some message carries the id. *)
Definition hasElement (messageId : jsstring) (s : t) : bool :=
  match findById messageId (messages s) with Some _ => true | None => false end.

(** [addMessage(msg)]: lines 376-432. *)
Definition addMessage (msg : ChatMessage.t) (s : t) : t :=
  emit (DomAppend msg) (set_messages (messages s ++ [msg]) s).

(** [updateStreamingMessage(messageId, content)]: lines 434-440. *)
Definition updateStreamingMessage (messageId content : jsstring) (s : t) : t :=
  if hasElement messageId s then emit (DomSetText messageId content) s else s.

(** The four assignments of lines 449-452 and of lines 356-359. *)
Definition finalized (content : jsstring) (sources : option (list Source))
    (intent : option jsstring) (msg : ChatMessage.t) : ChatMessage.t :=
  ChatMessage.mk (ChatMessage.id msg) (ChatMessage.role msg) content sources
    intent (ChatMessage.timestamp msg) (Some false).

Definition updateStored (messageId content : jsstring)
    (sources : option (list Source)) (intent : option jsstring) (s : t) : t :=
  match findById messageId (messages s) with
  | Some (i, msg) =>
      set_messages (<[i := finalized content sources intent msg]> (messages s)) s
  | None => s
  end.

(** [finalizeMessage(messageId, sources, intent)]: lines 442-461. *)
Definition finalizeMessage (messageId : jsstring) (sources : list Source)
    (intent : jsstring) (s : t) : t :=
  let s := updateStored messageId (currentStreamContent s) (Some sources)
             (Some intent) s in
  if hasElement messageId s
  then emit (DomRender messageId (currentStreamContent s)) s else s.

(** [showTypingIndicator()] and [removeTypingIndicator()]: lines 463-491. *)
Definition showTypingIndicator (s : t) : t := set_typingIndicator true s.
Definition removeTypingIndicator (s : t) : t := set_typingIndicator false s.

Definition enableInput (s : t) : t :=
  set_textareaDisabled false (set_sendBtnDisabled false s).
Definition disableInput (s : t) : t :=
  set_textareaDisabled true (set_sendBtnDisabled true s).

(** *** Session set-up *)

(** [connectWS()]: lines 186-202. *)
Definition connectWS (s : t) : t :=
  set_ws (Some (WebSocketClient.connect
                  (WebSocketClient.new (apiUrl s) (visitorId s) (sourceGroupId s)))) s.

(** [initSession()], from the point where the bootstrap call has answered
    with [visitor_id] and an optional welcome text: lines 164-180. *)
Definition initSession (now : Z) (visitor_id : jsstring)
    (welcome_message : option jsstring) (s : t) : t :=
  let s := set_visitorId visitor_id s in
  let s := if truthyOpt welcome_message
           then set_welcomeMessage (default [] welcome_message) s else s in
  let s := addMessage (ChatMessage.mk (js "welcome") assistant (welcomeMessage s)
                         None None now None) s in
  connectWS s.


(** *** The live path *)

(** [handleWSMessage(data)]: lines 204-262.  [now] is the clock reading of
    [Date.now()] and [new Date()] during the call. *)
Definition handleWSMessage (now : Z) (data : WSIncoming) (s : t) : t :=
  match data with
  | WSStreamStart message_id =>
      let s := set_isStreaming true s in
      let s := set_currentStreamId message_id s in
      let s := set_currentStreamContent [] s in
      let s := removeTypingIndicator s in
      addMessage (ChatMessage.mk message_id assistant [] None None now (Some true)) s
  | WSStreamChunk content message_id =>
      let s := set_currentStreamContent (currentStreamContent s ++ content) s in
      updateStreamingMessage message_id (currentStreamContent s) s
  | WSStreamEnd message_id conversation_id sources intent =>
      let s := set_isStreaming false s in
      let s := if truthyOpt conversation_id
               then set_conversationId (default [] conversation_id) s else s in
      let s := finalizeMessage message_id sources intent s in
      enableInput s
  | WSError message =>
      let s := removeTypingIndicator s in
      let s := set_isStreaming false s in
      let s := addMessage (ChatMessage.mk (toString now) assistant message
                             None None now None) s in
      enableInput s
  | WSSystem content _ =>
      let s := removeTypingIndicator s in
      addMessage (ChatMessage.mk (toString now) system content None None now None) s
  | WSOther => s
  end.

(** A run of inbound signals, each with the clock reading at its arrival. *)
Definition handleAll (sigs : list (Z * WSIncoming)) (s : t) : t :=
  foldl (λ s p, handleWSMessage p.1 p.2 s) s sigs.

(** *** Submission *)

(** [this.ws?.isConnected]. *)
Definition wsConnected (s : t) : bool :=
  match ws s with Some c => WebSocketClient.isConnected c | None => false end.

(** [sendViaRest(content)] up to its first [await]: the [fetch] call of lines
    302-315. *)
Definition sendViaRest (content : jsstring) (s : t) : t :=
  emit (Fetch content (orUndefined (conversationId s)) (visitorId s)) s.

(** [sendMessage()]: lines 264-298. *)
Definition sendMessage (now : Z) (s : t) : t :=
  let content := trim (textareaValue s) in
  if negb (truthy content) || isStreaming s then s
  else
    let s := addMessage (ChatMessage.mk (toString now) user content
                           None None now None) s in
    let s := showTypingIndicator s in
    let s := disableInput s in
    let s := if wsConnected s
             then set_ws (WebSocketClient.send
                            (WSMessage.mk TMessage (Some content)
                               (orUndefined (conversationId s))) <$> ws s) s
             else sendViaRest content s in
    set_textareaValue [] s.

(** The user edits the textarea. *)
Definition typeText (text : jsstring) (s : t) : t := set_textareaValue text s.

(** *** The fallback path *)

(** Modelled from the spec: the type of the body of the fallback response.
    The source leaves it untyped (the result of [await response.json()]) and
    reads the five fields below; the specification gives the shape
    [{conversation_id, message_id?, content, sources?, intent?}]. *)
Module RestData.
Record t := mk {
  conversation_id : jsstring;
  message_id : option jsstring;
  content : jsstring;
  sources : option (list Source);
  intent : option jsstring
}.
End RestData.

(** How the two awaits of lines 302-316 end: [fetch] rejects (no response),
    [response.json()] rejects (the body is not JSON), or a body is parsed.
    [status] is the HTTP status of the response; the code never reads it. *)
Inductive FetchResult :=
| FetchRejected
| JsonRejected (status : Z)
| Parsed (status : Z) (data : RestData.t).

(** The closure of the reveal timer of lines 335-350: the element is
    [msg-<msgId>], [i] is the number of code units revealed so far. *)
Record Reveal := {
  msgId : jsstring;
  data : RestData.t;
  i : Z
}.

(** The fixed text of line 366. *)
Definition apology : jsstring :=
  [66; 97; 287; 108; 97; 110; 116; 305; 32; 104; 97; 116; 97; 115; 305; 32;
   111; 108; 117; 351; 116; 117; 46; 32; 76; 252; 116; 102; 101; 110; 32;
   116; 101; 107; 114; 97; 114; 32; 100; 101; 110; 101; 121; 105; 110; 46]%N.

(** [data.message_id || Date.now().toString()]: line 322. *)
Definition placeholderId (now : Z) (data : RestData.t) : jsstring :=
  if truthyOpt (RestData.message_id data)
  then default [] (RestData.message_id data) else toString now.

(** The [finally] block: lines 369-373. *)
Definition sendViaRest_finally (s : t) : t := enableInput s.

(** [sendViaRest] from the point where the awaits of lines 302-316 have
    ended in [r], up to the start of the reveal timer (lines 318-337), or
    through [catch] and [finally] (lines 361-373).  The element looked up on
    line 331 is the one [addMessage] has just created or an older one with
    the same id, so the branch of line 334 is always taken. *)
Definition sendViaRest_resume (now : Z) (r : FetchResult) (s : t)
    : t * option Reveal :=
  match r with
  | Parsed _ data =>
      let s := removeTypingIndicator s in
      let s := set_conversationId (RestData.conversation_id data) s in
      let msgId := placeholderId now data in
      let s := addMessage (ChatMessage.mk msgId assistant [] None None now
                             (Some true)) s in
      (s, Some {| msgId := msgId; data := data; i := 0 |})
  | FetchRejected | JsonRejected _ =>
      let s := removeTypingIndicator s in
      let s := addMessage (ChatMessage.mk (toString now) assistant apology
                             None None now None) s in
      (sendViaRest_finally s, None)
  end.

(** [Math.floor(Math.random() * 6) + 3] for a draw [r] of [Math.random()].
    The draw is taken as an exact number of [0, 1).  In floating point the
    product is rounded, which for some draws moves the floor to the next
    integer but never to 6 (the largest double below 1 gives a product that
    rounds below 6), so the sizes that can come out, 3 to 8, are the same. *)
Definition chunkSize (r : Q) : Z := (Qfloor (r * 6) + 3)%Z.

(** One run of the interval callback of lines 337-349 with draw [r].  On the
    last run the promise resolves and the rest of [sendViaRest] (lines
    353-360, then [finally]) runs before any other event is handled. *)
Definition revealTick (r : Q) (f : Reveal) (s : t) : t * option Reveal :=
  let fullText := RestData.content (data f) in
  let i := (i f + chunkSize r)%Z in
  if bool_decide (Z.of_nat (length fullText) ≤ i)%Z then
    let s := emit (DomRender (msgId f) fullText) s in
    let s := updateStored (msgId f) fullText (RestData.sources (data f))
               (RestData.intent (data f)) s in
    (sendViaRest_finally s, None)
  else
    (emit (DomSetText (msgId f) (take (Z.to_nat i) fullText)) s,
     Some {| msgId := msgId f; data := data f; i := i |}).

(** The reveal timer fed with the draws [rs], until it has finished or the
    draws are used up. *)
Fixpoint reveal (rs : list Q) (f : Reveal) (s : t) : t * option Reveal :=
  match rs with
  | [] => (s, Some f)
  | r :: rs =>
      match revealTick r f s with
      | (s, Some f) => reveal rs f s
      | done => done
      end
  end.

(** The whole fallback exchange after the request was issued: the response
    [r] arrives at [now], then the timer runs on [rs]. *)
Definition fallback (now : Z) (r : FetchResult) (rs : list Q) (s : t)
    : t * option Reveal :=
  match sendViaRest_resume now r s with
  | (s, Some f) => reveal rs f s
  | done => done
  end.

(** *** Reading the effect log *)

Inductive Phase := Start | Update | Finalize | Request.

(** [DomAppend] of a message with the accumulating flag set opens a bubble,
    [DomSetText] updates one, [DomRender] finalizes one. *)
Definition phase (e : Effect) : option Phase :=
  match e with
  | DomAppend m => if default false (ChatMessage.isStreaming m)
                   then Some Start else None
  | DomSetText _ _ => Some Update
  | DomRender _ _ => Some Finalize
  | Fetch _ _ _ => Some Request
  end.

(** The effects of [s'] that [s] did not have yet, oldest first. *)
Definition since (s s' : t) : list Effect :=
  reverse (take (length (log s') - length (log s)) (log s')).

Definition phases (es : list Effect) : list Phase := omap phase es.

Definition assistantTurns (l : list ChatMessage.t) : list ChatMessage.t :=
  filter (λ m, ChatMessage.role m = assistant) l.

(** *** Reading the fallback exchange *)

(** A failed request: no response, or a body that is not JSON. *)
Definition failed (r : FetchResult) : bool :=
  match r with Parsed _ _ => false | _ => true end.

(** A draw of [Math.random()]: a number in [0, 1). *)
Definition unitDraw (r : Q) : Prop := (0 <= r)%Q ∧ (r < 1)%Q.

(** The shape of one assistant reply on the page: a bubble is opened, updated
    [n] times, finalized. *)
Definition lifecycle (n : nat) (ps : list Phase) : Prop :=
  ps = Start :: replicate n Update ++ [Finalize].

(** The growth of a series of revealed lengths, starting from [from]. *)
Fixpoint increments (from : Z) (ns : list Z) : list Z :=
  match ns with
  | [] => []
  | n :: ns => (n - from)%Z :: increments n ns
  end.

(** *** Example states *)

(** A widget whose session is set up; its socket is still connecting. *)
Definition offline : t :=
  initSession 100 (js "v1") None (new (js "https://h") None (js "Hi")).

(** The same widget once the socket has opened. *)
Definition online : t :=
  set_ws (WebSocketClient.step (WebSocketClient.EvOpen 0) <$> ws offline) offline.

(** The content of the Turn that the lookup of [mid] finds. *)
Definition contentOf (mid : jsstring) (s : t) : option jsstring :=
  (λ p, ChatMessage.content p.2) <$> findById mid (messages s).

(** A stream for [m1] that has received its first chunk. *)
Definition streaming : t :=
  handleAll [(300%Z, WSStreamStart (js "m1"));
             (301%Z, WSStreamChunk (js "He") (js "m1"))] online.

(** A fallback response and the widget while its text is being revealed:
    the user submitted "hi" offline, the response arrived and the timer ran
    once. *)
Definition helloWorld : RestData.t :=
  RestData.mk (js "c1") None (js "Hello world") (Some []) (Some (js "faq")).

Definition revealing : t * option Reveal :=
  fallback 300 (Parsed 200 helloWorld) [(1 # 2)%Q]
    (sendMessage 200 (typeText (js "hi") offline)).

(** *** The client inside the widget *)

(** A host event of the client owned by the widget (lines 187-201): the
    client handles it, and a message that it hands to [onMessage] -- one that
    arrived on an open socket and parsed -- goes to [handleWSMessage].  The
    [onOpen] and [onClose] callbacks only rewrite the status line of the
    header, which is not modelled. *)
Definition hostEvent (now : Z) (e : WebSocketClient.Event) (s : t) : t :=
  match ws s with
  | None => s
  | Some c =>
      let s := set_ws (Some (WebSocketClient.step e c)) s in
      match e with
      | WebSocketClient.EvMessage k (Some data) =>
          if WebSocketClient.isOpen k c
          then handleWSMessage now data s else s
      | _ => s
      end
  end.

Definition hostEvents (es : list (Z * WebSocketClient.Event)) (s : t) : t :=
  foldl (λ s p, hostEvent p.1 p.2 s) s es.

(** *** Reading the Turn list and the signals *)

(** What identifies a Turn and is never rewritten: id, role, creation time. *)
Definition skeleton (l : list ChatMessage.t)
    : list (jsstring * Role * Z) :=
  (λ m, (ChatMessage.id m, ChatMessage.role m, ChatMessage.timestamp m)) <$> l.

(** What a signal adds to the accumulator. *)
Definition delta (d : WSIncoming) : jsstring :=
  match d with WSStreamChunk c _ => c | _ => [] end.

(** A signal that can come between [stream_start] and [stream_end] of the
    stream [mid] without ending or restarting it: a chunk of the stream, a
    system notice, or a value of unknown type. *)
Definition inside (mid : jsstring) (d : WSIncoming) : Prop :=
  match d with
  | WSStreamChunk _ mid' => mid' = mid
  | WSSystem _ _ | WSOther => True
  | _ => False
  end.

(** A signal that is neither [stream_end] nor [error]. *)
Definition keepsLock (d : WSIncoming) : Prop :=
  match d with
  | WSStreamEnd _ _ _ _ | WSError _ => False
  | _ => True
  end.

(** The test of line 266 lets the submission through. *)
Definition accepted (s : t) : bool :=
  truthy (trim (textareaValue s)) && negb (isStreaming s).

(** The submissions that left the widget, oldest first: over the socket
    (left) or as a fallback request (right), with text and conversation id. *)
Definition wsSubmissions (s : t) : list (jsstring * option jsstring) :=
  match ws s with
  | Some c =>
      reverse (omap (λ o, match o with
                          | WebSocketClient.SocketSend _ (WSMessage.mk TMessage (Some text) conv) =>
                              Some (text, conv)
                          | _ => None
                          end) (WebSocketClient.out c))
  | None => []
  end.

Definition restSubmissions (s : t) : list (jsstring * option jsstring) :=
  reverse (omap (λ e, match e with
                      | Fetch text conv _ => Some (text, conv)
                      | _ => None
                      end) (log s)).


End ChatWidget.

(** ** ChatWidget.ts: opening and closing the panel *)

Module View.

(** The two fields that [toggle] and [toggleFullscreen] own, then what they
    write on the page: the classes [open] and [fullscreen] of the container,
    the class [open] of the trigger button, and whether the expand and the
    shrink icon are displayed.  Scrolling and focus are left out. *)
Record t := mk {
  isOpen : bool;
  isFullscreen : bool;
  containerOpen : bool;
  containerFullscreen : bool;
  triggerOpen : bool;
  expandShown : bool;
  shrinkShown : bool
}.

(** After [render()]: closed, not fullscreen, the shrink icon hidden by its
    inline style (line 101). *)
Definition initial : t :=
  {| isOpen := false; isFullscreen := false; containerOpen := false;
     containerFullscreen := false; triggerOpen := false;
     expandShown := true; shrinkShown := false |}.

(** [toggleFullscreen()]: lines 499-511.  Both icons are part of the markup
    of [render()], so the test of line 505 succeeds. *)
Definition toggleFullscreen (v : t) : t :=
  let fs := negb (isFullscreen v) in
  mk (isOpen v) fs (containerOpen v) fs (triggerOpen v) (negb fs) fs.

(** [toggle()]: lines 513-527. *)
Definition toggle (v : t) : t :=
  let o := negb (isOpen v) in
  let v := mk o (isFullscreen v) o (containerFullscreen v) o
              (expandShown v) (shrinkShown v) in
  if negb (isOpen v) && isFullscreen v then toggleFullscreen v else v.

(** The three buttons wired in [bindEvents()]: lines 123-131. *)
Inductive Click := ClickTrigger | ClickFullscreen | ClickClose.

Definition click (b : Click) (v : t) : t :=
  match b with
  | ClickTrigger | ClickClose => toggle v
  | ClickFullscreen => toggleFullscreen v
  end.

Definition clicks (bs : list Click) (v : t) : t := foldl (λ v b, click b v) v bs.

(** The page shows what the fields say. *)
Definition inSync (v : t) : Prop :=
  containerOpen v = isOpen v ∧ triggerOpen v = isOpen v ∧
  containerFullscreen v = isFullscreen v ∧
  expandShown v = negb (isFullscreen v) ∧ shrinkShown v = isFullscreen v.

End View.

(** ** markdown.ts: the escaping step *)

Module Markdown.

(** [s.replace(/c/g, by)] for a pattern that is one literal code unit and a
    replacement without [$]. *)
Definition replaceAll (c : N) (by_ : jsstring) (s : jsstring) : jsstring :=
  s ≫= (λ x, if (x =? c)%N then by_ else [x]).

(** The first statement of [renderMarkdown] (lines 9-12 of markdown.ts):
    [text.replace(/&/g, "&amp;").replace(/</g, "&lt;").replace(/>/g, "&gt;")]. *)
Definition escapeHtml (text : jsstring) : jsstring :=
  replaceAll 62 (js "&gt;") (replaceAll 60 (js "&lt;")
    (replaceAll 38 (js "&amp;") text)).

(** What one code unit becomes. *)
Definition escapeUnit (x : N) : jsstring :=
  if (x =? 38)%N then js "&amp;"
  else if (x =? 60)%N then js "&lt;"
  else if (x =? 62)%N then js "&gt;"
  else [x].

End Markdown.


(** * Properties of the Connection Manager *)

Section ConnectionManager.

Import WebSocketClient.

Implicit Types (c : WebSocketClient.t) (e : Event) (es : list Event).

Lemma connect_fields c :
  ws (connect c) = Some (length (sockets c)) ∧
  sockets (connect c) = sockets c ++ [CONNECTING] ∧
  reconnectAttempts (connect c) = reconnectAttempts c ∧
  maxReconnectAttempts (connect c) = maxReconnectAttempts c ∧
  reconnectTimeout (connect c) = reconnectTimeout c ∧
  pingInterval (connect c) = pingInterval c ∧
  timeouts (connect c) = timeouts c ∧
  intervals (connect c) = intervals c.
Proof. by destruct c. Qed.

Lemma stopPing_fields c :
  ws (stopPing c) = ws c ∧ sockets (stopPing c) = sockets c ∧
  reconnectAttempts (stopPing c) = reconnectAttempts c ∧
  maxReconnectAttempts (stopPing c) = maxReconnectAttempts c ∧
  reconnectTimeout (stopPing c) = reconnectTimeout c ∧
  timeouts (stopPing c) = timeouts c ∧
  out (stopPing c) = out c ∧
  pingInterval (stopPing c) = None ∧
  (∀ h, pingInterval c = Some h → intervals (stopPing c) = intervals c ∖ {[h]}) ∧
  (pingInterval c = None → intervals (stopPing c) = intervals c).
Proof.
  unfold stopPing. destruct c as [? ? ? ? ? ? ? [h|] ? ? ? ? ?]; simpl;
    repeat split; try done; intros; congruence.
Qed.

Lemma tryReconnect_stop c :
  (maxReconnectAttempts c ≤ reconnectAttempts c)%N → tryReconnect c = c.
Proof.
  intros H. unfold tryReconnect.
  by rewrite (proj2 (N.leb_le _ _) H).
Qed.

Lemma tryReconnect_go c :
  (reconnectAttempts c < maxReconnectAttempts c)%N →
  out (tryReconnect c)
    = SetTimeout (nextHandle c)
        (N.min (1000 * 2 ^ reconnectAttempts c) 30000) :: out c ∧
  reconnectAttempts (tryReconnect c) = (reconnectAttempts c + 1)%N ∧
  reconnectTimeout (tryReconnect c) = Some (nextHandle c) ∧
  timeouts (tryReconnect c) = {[nextHandle c]} ∪ timeouts c ∧
  maxReconnectAttempts (tryReconnect c) = maxReconnectAttempts c ∧
  ws (tryReconnect c) = ws c ∧ sockets (tryReconnect c) = sockets c ∧
  intervals (tryReconnect c) = intervals c ∧
  pingInterval (tryReconnect c) = pingInterval c.
Proof.
  intros H. unfold tryReconnect.
  rewrite (proj2 (N.leb_gt _ _) H). by destruct c.
Qed.

Lemma onopen_fields c :
  reconnectAttempts (onopen c) = 0%N ∧
  maxReconnectAttempts (onopen c) = maxReconnectAttempts c ∧
  ws (onopen c) = ws c ∧ sockets (onopen c) = sockets c ∧
  timeouts (onopen c) = timeouts c ∧
  reconnectTimeout (onopen c) = reconnectTimeout c ∧
  pingInterval (onopen c) = Some (nextHandle c) ∧
  intervals (onopen c) = {[nextHandle c]} ∪ intervals c ∧
  out (onopen c) = OnOpen :: SetInterval (nextHandle c) 30000 :: out c.
Proof. by destruct c. Qed.

Lemma send_fields m c :
  ws (send m c) = ws c ∧ sockets (send m c) = sockets c ∧
  reconnectAttempts (send m c) = reconnectAttempts c ∧
  maxReconnectAttempts (send m c) = maxReconnectAttempts c ∧
  reconnectTimeout (send m c) = reconnectTimeout c ∧
  pingInterval (send m c) = pingInterval c ∧
  timeouts (send m c) = timeouts c ∧
  intervals (send m c) = intervals c.
Proof.
  unfold send. destruct c as [? ? ? [k|] ? ? ? ? ? ? ? ? ?]; simpl; [|done].
  by destruct (bool_decide _).
Qed.

Lemma send_no_transport m c : ws c = None → send m c = c.
Proof. intros H. unfold send. by rewrite H. Qed.

Lemma step_shutDown e c :
  shutDown c →
  shutDown (step e c) ∧
  ∃ new, out (step e c) = new ++ out c ∧ Forall quiet new.
Proof.
  intros (Hmax & Hws & Hto).
  destruct e as [k|k payload|k|k|h|h]; simpl.
  - destruct (sockets c !! k) as [[]|] eqn:Hk;
      try (split; [done|by exists []]).
    destruct (onopen_fields (set_sockets (<[k:=OPEN]> (sockets c)) c))
      as (_ & Hm & Hw & _ & Ht & _ & _ & _ & Ho).
    split; [by rewrite /shutDown Hm Hw Ht|].
    exists [OnOpen; SetInterval (nextHandle c) 30000].
    split; [by rewrite Ho|]. by repeat constructor.
  - destruct (sockets c !! k) as [[]|] eqn:Hk;
      try (split; [done|by exists []]).
    destruct payload as [d|]; simpl; [|split; [done|by exists []]].
    split; [done|]. exists [OnMessage d]. split; [done|]. by repeat constructor.
  - split; [done|by exists []].
  - assert (∀ l, shutDown (onclose (set_sockets l c)) ∧
       ∃ new, out (onclose (set_sockets l c)) = new ++ out c ∧ Forall quiet new)
      as Hclose.
    { intros l. unfold onclose.
      destruct (stopPing_fields (set_sockets l c))
        as (Hw & _ & _ & Hm & _ & Ht & Ho & _).
      rewrite tryReconnect_stop; first (simpl; rewrite Hm /= Hmax; lia).
      split; [by rewrite /shutDown /= Hm Hw Ht|].
      exists [OnClose]. split; [by rewrite /= Ho|]. by repeat constructor. }
    destruct (sockets c !! k) as [[]|] eqn:Hk;
      try apply Hclose; split; try done; by exists [].
  - assert (h ∉ timeouts c) as Hh by (rewrite Hto; set_solver).
    rewrite (bool_decide_eq_false_2 _ Hh).
    split; [done|by exists []].
  - destruct (bool_decide _); [|split; [done|by exists []]].
    unfold pingCallback. rewrite send_no_transport //.
    split; [done|by exists []].
Qed.

Lemma run_shutDown es c :
  shutDown c →
  shutDown (run es c) ∧
  ∃ new, out (run es c) = new ++ out c ∧ Forall quiet new.
Proof.
  revert c. induction es as [|e es IH]; intros c Hc; simpl.
  - split; [done|by exists []].
  - destruct (step_shutDown e c Hc) as (Hc' & new1 & Ho1 & Hq1).
    destruct (IH _ Hc') as (Hc'' & new2 & Ho2 & Hq2).
    split; [done|]. exists (new2 ++ new1).
    split; [by rewrite Ho2 Ho1 assoc|by apply Forall_app].
Qed.

Lemma disconnect_fields c :
  maxReconnectAttempts (disconnect c) = 0%N ∧
  ws (disconnect c) = None ∧
  pingInterval (disconnect c) = None ∧
  reconnectAttempts (disconnect c) = reconnectAttempts c ∧
  reconnectTimeout (disconnect c) = reconnectTimeout c ∧
  timeouts (disconnect c)
    = match reconnectTimeout c with
      | Some h => timeouts c ∖ {[h]}
      | None => timeouts c
      end ∧
  intervals (disconnect c)
    = match pingInterval c with
      | Some h => intervals c ∖ {[h]}
      | None => intervals c
      end ∧
  out (disconnect c)
    = match ws c with
      | Some k => SocketClose k :: out c
      | None => out c
      end ∧
  sockets (disconnect c)
    = match ws c with
      | Some k =>
          match sockets c !! k with
          | Some CONNECTING | Some OPEN => <[k := CLOSING]> (sockets c)
          | _ => sockets c
          end
      | None => sockets c
      end.
Proof.
  unfold disconnect, stopPing, socketClose.
  destruct c as [? ? ? [k|] ? ? [h|] [h'|] l ? ? ? ?]; simpl;
    try done; by destruct (l !! k) as [[]|].
Qed.

Lemma tracked_cleared c :
  tracked c → timeouts (disconnect c) = ∅ ∧ intervals (disconnect c) = ∅.
Proof.
  intros [Ht Hi].
  destruct (disconnect_fields c) as (_ & _ & _ & _ & _ & -> & -> & _).
  split.
  - destruct (reconnectTimeout c) as [h|] eqn:E.
    + apply set_eq. intros x. split; [|set_solver].
      intros [Hx Hne]%elem_of_difference. specialize (Ht _ Hx). set_solver.
    + apply set_eq. intros x. split; [|set_solver].
      intros Hx. by specialize (Ht _ Hx).
  - destruct (pingInterval c) as [h|] eqn:E.
    + apply set_eq. intros x. split; [|set_solver].
      intros [Hx Hne]%elem_of_difference. specialize (Hi _ Hx). set_solver.
    + apply set_eq. intros x. split; [|set_solver].
      intros Hx. by specialize (Hi _ Hx).
Qed.

Lemma disconnect_closes c k :
  ws c = Some k →
  head (out (disconnect c)) = Some (SocketClose k) ∧
  sockets (disconnect c) !! k ≠ Some CONNECTING ∧
  sockets (disconnect c) !! k ≠ Some OPEN.
Proof.
  intros Hk.
  destruct (disconnect_fields c) as (_ & _ & _ & _ & _ & _ & _ & -> & ->).
  rewrite Hk. split; [done|].
  destruct (sockets c !! k) as [st|] eqn:E.
  - assert (k < length (sockets c)) by (by eapply lookup_lt_Some).
    destruct st; rewrite ?list_lookup_insert_eq // E; done.
  - by rewrite E.
Qed.

(** [tracked] and [singleLink] read six fields only. *)
Lemma link_ext c c' :
  ws c' = ws c → sockets c' = sockets c → timeouts c' = timeouts c →
  intervals c' = intervals c → reconnectTimeout c' = reconnectTimeout c →
  pingInterval c' = pingInterval c →
  tracked c ∧ singleLink c → tracked c' ∧ singleLink c'.
Proof.
  unfold tracked, singleLink.
  by intros -> -> -> -> -> ->.
Qed.

Lemma empty_if_tracked (X : gset positive) (o : option positive) :
  (∀ h, h ∈ X → o = Some h) →
  match o with Some h => X ∖ {[h]} | None => X end = ∅.
Proof.
  intros H. apply set_eq. intros x. split; [|set_solver].
  destruct o as [h|].
  - intros [Hx Hne]%elem_of_difference. specialize (H _ Hx). set_solver.
  - intros Hx. by specialize (H _ Hx).
Qed.

Lemma link_connect_new url sid sg :
  tracked (connect (new url sid sg)) ∧ singleLink (connect (new url sid sg)).
Proof.
  unfold tracked, singleLink. simpl.
  split; [split; set_solver|]. split; [|set_solver].
  intros [|k] st Hk _; [done|]. by destruct k.
Qed.

Lemma link_open c k :
  sockets c !! k = Some CONNECTING →
  tracked c ∧ singleLink c →
  tracked (step (EvOpen k) c) ∧ singleLink (step (EvOpen k) c).
Proof.
  intros Hk [[Ht Hi] [Hs Ho]]. simpl. rewrite Hk.
  destruct (onopen_fields (set_sockets (<[k:=OPEN]> (sockets c)) c))
    as (_ & _ & Hw & Hso & Hto & Hrt & Hpi & Hiv & _).
  destruct (Hs k CONNECTING Hk) as [Hwk Hempty]; [done|].
  assert (k < length (sockets c)) as Hlt by (by eapply lookup_lt_Some).
  assert (intervals c = ∅) as Hnone.
  { apply set_eq. intros h. split; [|set_solver].
    intros (k' & Hk' & Hopen)%Ho. congruence. }
  unfold tracked, singleLink.
  rewrite Hw Hso Hto Hrt Hpi Hiv /= Hnone.
  split; [split; [done|intros h; set_solver]|]. split.
  - intros k0 st0 H0 Hn. destruct (decide (k0 = k)) as [->|Hne]; [done|].
    rewrite list_lookup_insert_ne // in H0. by eapply Hs.
  - intros h _. exists k. by rewrite list_lookup_insert_eq.
Qed.

Lemma link_close c k st :
  sockets c !! k = Some st → st ≠ CLOSED →
  tracked c ∧ singleLink c →
  tracked (onclose (set_sockets (<[k:=CLOSED]> (sockets c)) c)) ∧
  singleLink (onclose (set_sockets (<[k:=CLOSED]> (sockets c)) c)).
Proof.
  intros Hk Hst [[Ht Hi] [Hs Ho]].
  destruct (Hs k st Hk Hst) as [Hwk Hempty].
  assert (k < length (sockets c)) as Hlt by (by eapply lookup_lt_Some).
  set (c1 := set_sockets (<[k:=CLOSED]> (sockets c)) c).
  destruct (stopPing_fields c1)
    as (Hw & Hso & Hra & Hm & Hrt & Hto & _ & Hpi & Hiv1 & Hiv2).
  assert (intervals (stopPing c1) = ∅) as Hnone.
  { pose proof (empty_if_tracked (intervals c) (pingInterval c) Hi) as E.
    destruct (pingInterval c) as [h|] eqn:Ep.
    - by rewrite (Hiv1 h).
    - by rewrite Hiv2. }
  assert (∀ k0 st0, <[k:=CLOSED]> (sockets c) !! k0 = Some st0 → st0 = CLOSED)
    as Hall.
  { intros k0 st0 H0. destruct (decide (k0 = k)) as [->|Hne].
    - rewrite list_lookup_insert_eq // in H0. congruence.
    - rewrite list_lookup_insert_ne // in H0.
      destruct (decide (st0 = CLOSED)) as [|Hn]; [done|].
      destruct (Hs _ _ H0 Hn) as [Hw0 _]. congruence. }
  unfold onclose.
  set (c2 := emit OnClose (stopPing c1)).
  assert (tracked c2 ∧ singleLink c2) as Hc2.
  { unfold tracked, singleLink, c2. simpl.
    rewrite Hw Hso Hrt Hto Hpi Hnone /= Hempty.
    split; [split; set_solver|]. split; [|set_solver].
    intros k0 st0 H0 Hn. by apply Hall in H0. }
  destruct (N.le_gt_cases (maxReconnectAttempts c2) (reconnectAttempts c2))
    as [Hle|Hgt].
  - by rewrite tryReconnect_stop.
  - destruct (tryReconnect_go c2 Hgt)
      as (_ & _ & Hrt' & Hto' & _ & Hw' & Hso' & Hiv' & Hpi').
    unfold tracked, singleLink.
    rewrite Hrt' Hto' Hw' Hso' Hiv' Hpi' /c2 /= Hso Hto Hnone /= Hempty.
    split; [split; [intros h|]; set_solver|]. split; [|set_solver].
    intros k0 st0 H0 Hn. by apply Hall in H0.
Qed.

Lemma link_timeout c h :
  h ∈ timeouts c →
  tracked c ∧ singleLink c →
  tracked (connect (clearTimeout h c)) ∧ singleLink (connect (clearTimeout h c)).
Proof.
  intros Hh [[Ht Hi] [Hs Ho]].
  assert (∀ k st, sockets c !! k = Some st → st = CLOSED) as Hall.
  { intros k st Hk. destruct (decide (st = CLOSED)) as [|Hn]; [done|].
    destruct (Hs _ _ Hk Hn) as [_ He]. set_solver. }
  assert (intervals c = ∅) as Hnone.
  { apply set_eq. intros x. split; [|set_solver].
    intros (k & _ & Hopen)%Ho. by apply Hall in Hopen. }
  assert (timeouts c ∖ {[h]} = ∅) as Hcleared.
  { pose proof (empty_if_tracked (timeouts c) (reconnectTimeout c) Ht) as E.
    by rewrite (Ht _ Hh) in E. }
  destruct (connect_fields (clearTimeout h c))
    as (Hw & Hso & _ & _ & Hrt & Hpi & Hto & Hiv).
  unfold tracked, singleLink.
  rewrite Hw Hso Hrt Hpi Hto Hiv /= Hcleared Hnone.
  split; [split; set_solver|]. split; [|set_solver].
  intros k st [H|[Hge H]]%lookup_app_Some Hn.
  - by apply Hall in H.
  - destruct (k - length (sockets c)) as [|n] eqn:E; [|by destruct n].
    split; [f_equal; lia|done].
Qed.

Lemma link_step e c :
  tracked c ∧ singleLink c → tracked (step e c) ∧ singleLink (step e c).
Proof.
  intros Hc. destruct e as [k|k payload|k|k|h|h].
  - destruct (sockets c !! k) as [[]|] eqn:Hk;
      [by apply link_open|by rewrite /= Hk..].
  - simpl. destruct (sockets c !! k) as [[]|]; try done.
    destruct payload; [|done]. by eapply link_ext; [..|exact Hc].
  - done.
  - simpl. destruct (sockets c !! k) as [st|] eqn:Hk; [|done].
    destruct st; try done; by eapply link_close.
  - simpl. case_bool_decide as Hh; [|done]. by apply link_timeout.
  - simpl. destruct (bool_decide _); [|done].
    unfold pingCallback.
    destruct (send_fields (WSMessage.mk TPing None None) c)
      as (? & ? & _ & _ & ? & ? & ? & ?).
    by eapply link_ext; [..|exact Hc].
Qed.

(** In every state the widget reaches before shutting the client down, the
    armed timers are the ones the handle fields hold. *)
Lemma reachable_link c : reachable c → tracked c ∧ singleLink c.
Proof.
  induction 1 as [url sid sg|e c _ IH|m c _ IH].
  - apply link_connect_new.
  - by apply link_step.
  - destruct (send_fields m c) as (? & ? & _ & _ & ? & ? & ? & ?).
    by eapply link_ext; [..|exact IH].
Qed.

Lemma reachable_tracked c : reachable c → tracked c.
Proof. by intros [? _]%reachable_link. Qed.

(** Whatever the state [disconnect()] was called in, the maximum stays 0
    under host events and no timeout is armed any more. *)
Lemma step_never_reschedules e c :
  maxReconnectAttempts c = 0%N →
  maxReconnectAttempts (step e c) = 0%N ∧
  ∃ new, out (step e c) = new ++ out c ∧
         Forall (λ o, isSetTimeout o = false) new.
Proof.
  intros Hmax. destruct e as [k|k payload|k|k|h|h]; simpl.
  - destruct (sockets c !! k) as [[]|];
      try (split; [done|by exists []]).
    split; [done|]. eexists [_; _]. split; [done|]. by repeat constructor.
  - destruct (sockets c !! k) as [[]|];
      try (split; [done|by exists []]).
    destruct payload as [d|]; [|split; [done|by exists []]].
    split; [done|]. exists [OnMessage d]. split; [done|]. by repeat constructor.
  - split; [done|by exists []].
  - assert (∀ l, maxReconnectAttempts (onclose (set_sockets l c)) = 0%N ∧
       ∃ new, out (onclose (set_sockets l c)) = new ++ out c ∧
              Forall (λ o, isSetTimeout o = false) new) as Hclose.
    { intros l. unfold onclose.
      destruct (stopPing_fields (set_sockets l c))
        as (_ & _ & _ & Hm & _ & _ & Ho & _).
      rewrite tryReconnect_stop; first (simpl; rewrite Hm /= Hmax; lia).
      split; [by rewrite /= Hm|].
      exists [OnClose]. split; [by rewrite /= Ho|]. by repeat constructor. }
    destruct (sockets c !! k) as [[]|];
      try apply Hclose; split; try done; by exists [].
  - destruct (bool_decide _); [|split; [done|by exists []]].
    split; [done|]. eexists [_]. split; [done|]. by repeat constructor.
  - destruct (bool_decide _); [|split; [done|by exists []]].
    unfold pingCallback, send.
    destruct (ws c) as [k|]; [|split; [done|by exists []]].
    destruct (bool_decide _); [|split; [done|by exists []]].
    split; [done|]. eexists [_]. split; [done|]. by repeat constructor.
Qed.

Lemma disconnect_never_reschedules es c :
  ∃ new, out (run es (disconnect c)) = new ++ out (disconnect c) ∧
         Forall (λ o, isSetTimeout o = false) new.
Proof.
  destruct (disconnect_fields c) as (Hmax & _).
  revert Hmax. generalize (disconnect c). clear c.
  induction es as [|e es IH]; intros c Hmax; simpl.
  - by exists [].
  - destruct (step_never_reschedules e c Hmax) as (Hmax' & new1 & Ho1 & Hq1).
    destruct (IH _ Hmax') as (new2 & Ho2 & Hq2).
    exists (new2 ++ new1).
    split; [by rewrite Ho2 Ho1 assoc|by apply Forall_app].
Qed.

(** C5.  In a state where the armed timers are the ones the client holds the
    handles of (every state the widget drives the client into, see
    [reachable_tracked]), [disconnect()] sets the maximum attempt count to 0,
    stops the KeepAlive timer (no interval stays armed), cancels the pending
    reconnect timer (no timeout stays armed), closes the transport and drops
    it; and whatever host events follow, nothing is ever written to a
    transport (so no ping), no timeout is armed (so no reconnect attempt is
    scheduled) and no transport is opened. *)
Theorem disconnect_is_terminal c es :
  tracked c →
  maxReconnectAttempts (disconnect c) = 0%N ∧
  pingInterval (disconnect c) = None ∧
  intervals (disconnect c) = ∅ ∧
  timeouts (disconnect c) = ∅ ∧
  ws (disconnect c) = None ∧
  (∀ k, ws c = Some k →
     head (out (disconnect c)) = Some (SocketClose k) ∧
     sockets (disconnect c) !! k ≠ Some CONNECTING ∧
     sockets (disconnect c) !! k ≠ Some OPEN) ∧
  timeouts (run es (disconnect c)) = ∅ ∧
  ∃ new, out (run es (disconnect c)) = new ++ out (disconnect c) ∧
         Forall quiet new.
Proof.
  intros Htr.
  destruct (disconnect_fields c) as (Hmax & Hws & Hpi & _).
  destruct (tracked_cleared c Htr) as [Hto Hiv].
  assert (shutDown (disconnect c)) as Hsd by done.
  destruct (run_shutDown es _ Hsd) as ((_ & _ & Hto') & Hquiet).
  repeat split; try done.
  all: by eapply disconnect_closes.
Qed.

Lemma disconnect_is_terminal_witness :
  tracked openClient ∧
  timeouts (run afterShutdown (disconnect openClient)) = ∅ ∧
  ∃ new, out (run afterShutdown (disconnect openClient))
           = new ++ out (disconnect openClient) ∧ Forall quiet new.
Proof.
  assert (tracked openClient) as H.
  { apply reachable_tracked. unfold openClient. repeat constructor. }
  split; [exact H|].
  exact (proj2 (proj2 (proj2 (proj2 (proj2 (proj2
           (disconnect_is_terminal openClient afterShutdown H))))))).
Defined.

(** C4, as stated, fails: [connect()] on a client that is connecting, on one
    that is open, and on one that was disconnected opens a second transport
    and makes it the current one. *)
Lemma connect_idempotent_counterexample :
  let connecting := connect (new (js "https://h") (js "v1") None) in
  (ws connecting = Some 0 ∧ sockets connecting !! 0 = Some CONNECTING ∧
   opened (connect connecting) = 2 ∧ ws (connect connecting) = Some 1 ∧
   connect connecting ≠ connecting) ∧
  (isConnected openClient = true ∧
   opened (connect openClient) = 2 ∧ ws (connect openClient) = Some 1 ∧
   connect openClient ≠ openClient) ∧
  (opened (disconnect openClient) = 1 ∧
   opened (connect (disconnect openClient)) = 2 ∧
   sockets (connect (disconnect openClient)) !! 1 = Some CONNECTING ∧
   connect (disconnect openClient) ≠ disconnect openClient).
Proof.
  repeat split; try reflexivity;
    intros H; apply (f_equal opened) in H; vm_compute in H; discriminate.
Qed.

(** C4, amended.  [connect()] checks nothing: in every state of the client --
    connecting, open, or after [disconnect()] -- a call opens exactly one new
    transport, in state CONNECTING, and makes it the current one; the attempt
    counter, the maximum, the timers and the sockets opened before are left
    as they were.  It is never a no-op. *)
Theorem connect_always_opens c :
  opened (connect c) = S (opened c) ∧
  ws (connect c) = Some (opened c) ∧
  sockets (connect c) = sockets c ++ [CONNECTING] ∧
  (∃ u, out (connect c) = NewWebSocket u :: out c) ∧
  reconnectAttempts (connect c) = reconnectAttempts c ∧
  maxReconnectAttempts (connect c) = maxReconnectAttempts c ∧
  timeouts (connect c) = timeouts c ∧
  intervals (connect c) = intervals c ∧
  connect c ≠ c ∧
  opened (connect (disconnect c)) = S (opened c).
Proof.
  destruct (connect_fields c) as (Hw & Hso & Hra & Hm & _ & _ & Hto & Hiv).
  assert (opened (connect c) = S (opened c)) as Hn.
  { unfold opened. rewrite Hso length_app /=. lia. }
  repeat split; try done.
  - by eexists.
  - intros E. rewrite E in Hn. lia.
  - unfold opened.
    destruct (connect_fields (disconnect c)) as (_ & -> & _).
    destruct (disconnect_fields c) as (_ & _ & _ & _ & _ & _ & _ & _ & ->).
    rewrite length_app /=.
    destruct (ws c) as [k|]; [|lia].
    destruct (sockets c !! k) as [[]|]; rewrite ?length_insert; lia.
Qed.

(** C6.  With the default maximum of 5 attempts, the [n]-th reconnect attempt
    since the last successful open ([1 ≤ n ≤ 5], the counter standing at
    [n - 1]) is scheduled with delay [min(1000 * 2^(n-1), 30000)] and moves
    the counter to [n]; once the counter has reached 5 nothing more is
    scheduled; a successful open resets the counter to 0, so that the next
    drop is scheduled with the base delay of 1000. *)
Theorem reconnect_backoff c n :
  maxReconnectAttempts c = 5%N → (1 ≤ n ≤ 5)%N →
  reconnectAttempts c = (n - 1)%N →
  out (tryReconnect c)
    = SetTimeout (nextHandle c) (N.min (1000 * 2 ^ (n - 1)) 30000) :: out c ∧
  nextHandle c ∈ timeouts (tryReconnect c) ∧
  reconnectAttempts (tryReconnect c) = n ∧
  (∀ c', maxReconnectAttempts c' = 5%N → (5 ≤ reconnectAttempts c')%N →
         tryReconnect c' = c') ∧
  reconnectAttempts (onopen c) = 0%N ∧
  scheduledDelays (onclose (onopen c)) = scheduledDelays c ++ [1000%N].
Proof.
  intros Hmax Hn Hra.
  destruct (tryReconnect_go c) as (Ho & Hra' & _ & Hto & _); [lia|].
  rewrite Ho Hra' Hto Hra.
  repeat split.
  - set_solver.
  - lia.
  - intros c' Hmax' Hge. apply tryReconnect_stop. lia.
  - unfold onclose.
    set (c2 := emit OnClose (stopPing (onopen c))).
    assert (reconnectAttempts c2 = 0%N ∧ maxReconnectAttempts c2 = 5%N ∧
            out c2 = OnClose :: OnOpen :: SetInterval (nextHandle c) 30000 :: out c)
      as (Hra2 & Hmax2 & Ho2).
    { unfold c2. by destruct c. }
    destruct (tryReconnect_go c2) as (Ho3 & _); [lia|].
    by rewrite /scheduledDelays Ho3 Ho2 Hra2 /= !reverse_cons.
Qed.

Lemma reconnect_backoff_witness :
  maxReconnectAttempts twiceDropped = 5%N ∧
  reconnectAttempts twiceDropped = 2%N ∧
  out (tryReconnect twiceDropped)
    = SetTimeout (nextHandle twiceDropped) 4000 :: out twiceDropped.
Proof.
  split; [reflexivity|]. split; [reflexivity|].
  refine (proj1 (reconnect_backoff twiceDropped 3 _ _ _));
    [reflexivity|lia|reflexivity].
Defined.

(** The whole schedule on a client that never manages to open: five attempts
    at 1, 2, 4, 8 and 16 seconds, and none after the fifth. *)
Example backoff_schedule :
  let never := connect (new (js "https://h") (js "v1") None) in
  let five := run [EvClose 0; EvTimeout 1; EvClose 1; EvTimeout 2; EvClose 2;
                   EvTimeout 3; EvClose 3; EvTimeout 4; EvClose 4;
                   EvTimeout 5] never in
  scheduledDelays five = [1000; 2000; 4000; 8000; 16000]%N ∧
  scheduledDelays (step (EvClose 5) five) = scheduledDelays five ∧
  timeouts (step (EvClose 5) five) = ∅.
Proof. by vm_compute. Qed.

End ConnectionManager.

(** * Properties of the Streaming Session Controller *)

Section StreamingSessionController.

Import ChatWidget.

Implicit Types (s : ChatWidget.t) (l : list ChatMessage.t) (m : ChatMessage.t).

Lemma handleAll_cons now d sigs s :
  handleAll ((now, d) :: sigs) s = handleAll sigs (handleWSMessage now d s).
Proof. done. Qed.

Lemma handleAll_app sigs1 sigs2 s :
  handleAll (sigs1 ++ sigs2) s = handleAll sigs2 (handleAll sigs1 s).
Proof. apply foldl_app. Qed.

Lemma findById_Some mid l i m :
  findById mid l = Some (i, m) ↔
  l !! i = Some m ∧ ChatMessage.id m = mid ∧
  ∀ j y, l !! j = Some y → j < i → ChatMessage.id y ≠ mid.
Proof. unfold findById. by rewrite list_find_Some. Qed.

Lemma findById_None mid l :
  findById mid l = None ↔ Forall (λ m, ChatMessage.id m ≠ mid) l.
Proof. unfold findById. by rewrite list_find_None. Qed.

(** Replacing the message found by one with the same id does not move it. *)
Lemma findById_insert mid l i m m' :
  findById mid l = Some (i, m) → ChatMessage.id m' = mid →
  findById mid (<[i := m']> l) = Some (i, m').
Proof.
  intros (Hi & _ & Hfirst)%findById_Some Hid. apply findById_Some.
  assert (i < length l) by (by eapply lookup_lt_Some).
  split; [by rewrite list_lookup_insert_eq|]. split; [done|].
  intros j y Hj Hlt. rewrite list_lookup_insert_ne in Hj; [lia|].
  by eapply Hfirst.
Qed.

(** After a message with id [mid] is appended, the lookup of [mid] succeeds:
    on an older message with that id if there is one, else on the new one. *)
Lemma findById_snoc mid l p :
  ChatMessage.id p = mid →
  ∃ i m, findById mid (l ++ [p]) = Some (i, m) ∧
         (findById mid l = None → i = length l ∧ m = p).
Proof.
  intros Hid. destruct (findById mid l) as [[i m]|] eqn:E.
  - exists i, m. split; [|done].
    apply findById_Some in E as (Hi & Hm & Hfirst). apply findById_Some.
    split; [by apply lookup_app_l_Some|]. split; [done|].
    intros j y Hj Hlt. eapply Hfirst; [|done].
    assert (i < length l) by (by eapply lookup_lt_Some).
    rewrite lookup_app_l in Hj; [lia|done].
  - exists (length l), p. split; [|done].
    apply findById_None in E. apply findById_Some.
    split; [by rewrite list_lookup_middle|]. split; [done|].
    intros j y Hj Hlt. rewrite lookup_app_l // in Hj.
    rewrite Forall_forall in E. apply E. by eapply list_elem_of_lookup_2.
Qed.

(** A chunk, whatever its id, leaves the message list alone and appends its
    content to the accumulator. *)
Lemma chunk_fields now c mid s :
  let s' := handleWSMessage now (WSStreamChunk c mid) s in
  messages s' = messages s ∧
  currentStreamContent s' = currentStreamContent s ++ c ∧
  conversationId s' = conversationId s ∧
  isStreaming s' = isStreaming s ∧
  textareaDisabled s' = textareaDisabled s ∧
  sendBtnDisabled s' = sendBtnDisabled s ∧
  ws s' = ws s.
Proof.
  simpl. unfold updateStreamingMessage. by destruct (hasElement _ _).
Qed.

Lemma chunks_accumulate (chunks : list (Z * (jsstring * jsstring))) s :
  let s' := handleAll ((λ p, (p.1, WSStreamChunk p.2.1 p.2.2)) <$> chunks) s in
  messages s' = messages s ∧
  currentStreamContent s' = currentStreamContent s ++ concat (chunks.*2.*1) ∧
  conversationId s' = conversationId s ∧
  isStreaming s' = isStreaming s.
Proof.
  revert s. induction chunks as [|[now [c mid]] chunks IH]; intros s.
  - simpl. by rewrite app_nil_r.
  - rewrite fmap_cons handleAll_cons.
    destruct (IH (handleWSMessage now (WSStreamChunk c mid) s))
      as (E1 & E2 & E3 & E4).
    destruct (chunk_fields now c mid s) as (F1 & F2 & F3 & F4 & _).
    cbv zeta in *. cbn [fst snd] in *.
    rewrite E1 E2 E3 E4 F1 F2 F3 F4 !fmap_cons /= -assoc. done.
Qed.

Lemma start_fields now mid s :
  let s' := handleWSMessage now (WSStreamStart mid) s in
  messages s'
    = messages s ++ [ChatMessage.mk mid assistant [] None None now (Some true)] ∧
  currentStreamContent s' = [] ∧ currentStreamId s' = mid ∧
  isStreaming s' = true ∧ conversationId s' = conversationId s.
Proof. done. Qed.

Lemma end_fields now mid conv srcs intent s :
  let s' := handleWSMessage now (WSStreamEnd mid conv srcs intent) s in
  messages s'
    = match findById mid (messages s) with
      | Some (i, m) =>
          <[i := finalized (currentStreamContent s) (Some srcs) (Some intent) m]>
            (messages s)
      | None => messages s
      end ∧
  isStreaming s' = false ∧
  textareaDisabled s' = false ∧ sendBtnDisabled s' = false ∧
  currentStreamContent s' = currentStreamContent s ∧
  conversationId s'
    = (if truthyOpt conv then default [] conv else conversationId s).
Proof.
  simpl. unfold finalizeMessage, updateStored, hasElement.
  destruct (truthyOpt conv); simpl;
    destruct (findById mid (messages s)) as [[i m]|]; simpl;
    by repeat case_match.
Qed.

(** The Turn list after one stream on the live path: the placeholder is
    appended, and the first Turn carrying the id is rewritten with what the
    chunks add up to. *)
Lemma live_stream_messages s t0 t1 mid
    (chunks : list (Z * jsstring)) conv srcs intent :
  let sigs := (t0, WSStreamStart mid)
                :: ((λ p, (p.1, WSStreamChunk p.2 mid)) <$> chunks)
                ++ [(t1, WSStreamEnd mid conv srcs intent)] in
  let p := ChatMessage.mk mid assistant [] None None t0 (Some true) in
  ∃ i m0,
    findById mid (messages s ++ [p]) = Some (i, m0) ∧
    (findById mid (messages s) = None → i = length (messages s) ∧ m0 = p) ∧
    messages (handleAll sigs s)
      = <[i := finalized (concat (chunks.*2)) (Some srcs) (Some intent) m0]>
          (messages s ++ [p]) ∧
    isStreaming (handleAll sigs s) = false.
Proof.
  intros sigs p. unfold sigs. clear sigs.
  rewrite handleAll_cons handleAll_app.
  set (s1 := handleWSMessage t0 (WSStreamStart mid) s).
  assert ((λ p : Z * jsstring, (p.1, WSStreamChunk p.2 mid)) <$> chunks
          = (λ p, (p.1, WSStreamChunk p.2.1 p.2.2))
              <$> ((λ p, (p.1, (p.2, mid))) <$> chunks)) as ->.
  { by rewrite -list_fmap_compose. }
  set (tagged := (λ p : Z * jsstring, (p.1, (p.2, mid))) <$> chunks).
  destruct (chunks_accumulate tagged s1) as (Hm2 & Hc2 & _).
  set (s2 := handleAll _ s1) in *.
  assert (concat (tagged.*2.*1) = concat (chunks.*2)) as Hcat.
  { unfold tagged. f_equal. rewrite -!list_fmap_compose. by apply list_fmap_ext. }
  destruct (start_fields t0 mid s) as (Hm1 & Hc1 & _). fold s1 in Hm1, Hc1.
  rewrite Hm1 in Hm2. rewrite Hc1 Hcat /= in Hc2. fold p in Hm2.
  destruct (findById_snoc mid (messages s) p eq_refl) as (i & m0 & Hfind & Hnew).
  simpl handleAll.
  destruct (end_fields t1 mid conv srcs intent s2) as (Hm3 & Hs3 & _).
  rewrite Hm2 Hfind Hc2 in Hm3.
  by exists i, m0.
Qed.

(** C1.  From any state, a [stream_start] for [mid], then any sequence of
    [stream_chunk] signals carrying [mid], then the [stream_end] for [mid]:
    the Turn that is finalized (the one the lookup of [mid] finds) has as
    content the concatenation of the chunks' contents in arrival order, its
    accumulating flag is cleared and it carries the sources and the intent of
    the [stream_end].  When no older Turn had the id, that Turn is the
    assistant placeholder the [stream_start] appended, and it is the only
    change to the Turn list. *)
Theorem stream_content_is_concatenation s t0 t1 mid
    (chunks : list (Z * jsstring)) conv srcs intent :
  let sigs := (t0, WSStreamStart mid)
                :: ((λ p, (p.1, WSStreamChunk p.2 mid)) <$> chunks)
                ++ [(t1, WSStreamEnd mid conv srcs intent)] in
  ∃ i m,
    findById mid (messages (handleAll sigs s)) = Some (i, m) ∧
    ChatMessage.content m = concat (chunks.*2) ∧
    ChatMessage.isStreaming m = Some false ∧
    ChatMessage.sources m = Some srcs ∧
    ChatMessage.intent m = Some intent ∧
    isStreaming (handleAll sigs s) = false ∧
    (findById mid (messages s) = None →
       ChatMessage.role m = assistant ∧
       messages (handleAll sigs s) = messages s ++ [m]).
Proof.
  intros sigs.
  destruct (live_stream_messages s t0 t1 mid chunks conv srcs intent)
    as (i & m0 & Hfind & Hnew & Hm & Hs).
  fold sigs in Hm, Hs.
  exists i, (finalized (concat (chunks.*2)) (Some srcs) (Some intent) m0).
  rewrite Hm. split.
  { apply (findById_insert _ _ _ m0); [done|].
    by apply findById_Some in Hfind as (_ & ? & _). }
  do 5 (split; [done|]).
  intros [-> ->]%Hnew. split; [done|].
  by rewrite insert_app_r_alt // Nat.sub_diag.
Qed.

(** C2, as stated, fails.  While the stream [m1] is active, a chunk carrying
    [m2] raises nothing and touches no Turn at once, but its content ends up
    in what is finalized for [m1]; and a [stream_end] carrying [welcome],
    which is not the active stream, rewrites the Turn [welcome]. *)
Lemma unmatched_signal_counterexample :
  let rest := [(303%Z, WSStreamChunk (js "llo") (js "m1"));
               (304%Z, WSStreamEnd (js "m1") None [] (js "faq"))] in
  let stray := handleWSMessage 302 (WSStreamChunk (js "XX") (js "m2")) streaming in
  let stale := handleWSMessage 302 (WSStreamEnd (js "welcome") None [] (js "faq"))
                 streaming in
  isStreaming streaming = true ∧ currentStreamId streaming = js "m1" ∧
  contentOf (js "m1") (handleAll rest streaming) = Some (js "Hello") ∧
  messages stray = messages streaming ∧
  contentOf (js "m1") (handleAll rest stray) = Some (js "HeXXllo") ∧
  contentOf (js "welcome") streaming = Some (js "Hi") ∧
  contentOf (js "welcome") stale = Some (js "He") ∧
  messages stale ≠ messages streaming.
Proof. by vm_compute. Qed.

(** C2, amended.  A [stream_chunk] or [stream_end] whose [message_id] is the
    id of no Turn in the list mutates no Turn, creates none and writes
    nothing to the page or the network; a handler has no failing operation,
    so nothing is thrown.  The signal is not ignored altogether: the chunk's
    content is appended to the one accumulator, and the [stream_end] clears
    the [isStreaming] flag and enables the input. *)
Theorem unknown_id_changes_no_turn s now mid c conv srcs intent :
  findById mid (messages s) = None →
  let chunk := handleWSMessage now (WSStreamChunk c mid) s in
  let final := handleWSMessage now (WSStreamEnd mid conv srcs intent) s in
  messages chunk = messages s ∧ log chunk = log s ∧
  currentStreamContent chunk = currentStreamContent s ++ c ∧
  isStreaming chunk = isStreaming s ∧
  messages final = messages s ∧ log final = log s ∧
  currentStreamContent final = currentStreamContent s ∧
  isStreaming final = false ∧
  textareaDisabled final = false ∧ sendBtnDisabled final = false.
Proof.
  intros Hnone. simpl.
  unfold updateStreamingMessage, finalizeMessage, updateStored, hasElement.
  destruct (truthyOpt conv); simpl; rewrite Hnone /= ?Hnone //.
Qed.

Lemma unknown_id_changes_no_turn_witness :
  findById (js "m2") (messages streaming) = None ∧
  messages (handleWSMessage 302 (WSStreamChunk (js "XX") (js "m2")) streaming)
    = messages streaming ∧
  messages (handleWSMessage 302 (WSStreamEnd (js "m2") None [] (js "faq")) streaming)
    = messages streaming.
Proof.
  assert (findById (js "m2") (messages streaming) = None) as H by reflexivity.
  split; [exact H|].
  pose proof (unknown_id_changes_no_turn streaming 302 (js "m2") (js "XX")
                None [] (js "faq") H) as T.
  split; [exact (proj1 T)|exact (proj1 (proj2 (proj2 (proj2 (proj2 T)))))].
Defined.

(** C3, as stated, fails.  An [error] signal that arrives while the stream
    [m1] is active leaves the placeholder Turn as it was -- empty and still
    accumulating -- and appends a second assistant Turn with the error text:
    two assistant Turns for one submission. *)
Lemma error_signal_counterexample :
  let started := handleWSMessage 300 (WSStreamStart (js "m1")) online in
  let failed := handleWSMessage 301 (WSError (js "boom")) started in
  isStreaming started = true ∧
  length (assistantTurns (messages failed))
    = 2 + length (assistantTurns (messages online)) ∧
  contentOf (js "m1") failed = Some [] ∧
  (λ p, ChatMessage.isStreaming p.2) <$> findById (js "m1") (messages failed)
    = Some (Some true) ∧
  contentOf (js "301") failed = Some (js "boom").
Proof. by vm_compute. Qed.

(** C3, amended.  On an [error] signal the Controller clears its
    [isStreaming] flag, removes the typing indicator, enables the input and
    appends after the existing Turns exactly one new assistant Turn, with a
    locally generated id and no accumulating flag, whose content is the error
    text.  The accumulator and the stream id are left as they were. *)
Theorem error_signal_appends_turn s now text :
  let s' := handleWSMessage now (WSError text) s in
  messages s'
    = messages s ++ [ChatMessage.mk (toString now) assistant text None None
                       now None] ∧
  isStreaming s' = false ∧ typingIndicator s' = false ∧
  textareaDisabled s' = false ∧ sendBtnDisabled s' = false ∧
  currentStreamId s' = currentStreamId s ∧
  currentStreamContent s' = currentStreamContent s ∧
  (∃ e, log s' = e :: log s ∧ phase e = None).
Proof. simpl. repeat split. by eexists. Qed.

Lemma trim_blank (text : jsstring) :
  Forall (λ c, isWhiteSpace c = true) text → trim text = [].
Proof.
  intros H. unfold trim, trimEnd.
  assert (trimStart text = []) as ->; [|done].
  induction H as [|c text Hc _ IH]; [done|]. simpl. by rewrite Hc.
Qed.

(** C10.  A submit call whose text is empty or consists only of white space
    (the characters [trim] strips) is a complete no-op: the state -- Turn
    list, typing indicator, input controls, transport and effect log -- is
    left exactly as it was. *)
Theorem blank_submit_is_noop s now :
  Forall (λ c, isWhiteSpace c = true) (textareaValue s) →
  sendMessage now s = s.
Proof.
  intros H. unfold sendMessage. by rewrite (trim_blank _ H).
Qed.

Lemma blank_submit_is_noop_witness :
  Forall (λ c, isWhiteSpace c = true) [32; 9; 10; 160]%N ∧
  sendMessage 200 (typeText [32; 9; 10; 160]%N online)
    = typeText [32; 9; 10; 160]%N online.
Proof.
  assert (Forall (λ c, isWhiteSpace c = true) [32; 9; 10; 160]%N) as H
    by (repeat constructor).
  split; [exact H|].
  exact (blank_submit_is_noop (typeText [32; 9; 10; 160]%N online) 200 H).
Defined.

Lemma revealTick_fields r f s :
  isStreaming (revealTick r f s).1 = isStreaming s ∧
  conversationId (revealTick r f s).1 = conversationId s ∧
  ws (revealTick r f s).1 = ws s ∧
  ((revealTick r f s).2 ≠ None →
     messages (revealTick r f s).1 = messages s ∧
     textareaDisabled (revealTick r f s).1 = textareaDisabled s ∧
     sendBtnDisabled (revealTick r f s).1 = sendBtnDisabled s).
Proof.
  unfold revealTick, updateStored. case_bool_decide; simpl; [|done].
  by destruct (findById _ _) as [[? ?]|].
Qed.

Lemma reveal_isStreaming rs f s :
  isStreaming (reveal rs f s).1 = isStreaming s.
Proof.
  revert f s. induction rs as [|r rs IH]; intros f s; [done|]. simpl.
  destruct (revealTick_fields r f s) as (E & _).
  destruct (revealTick r f s) as [s' [f'|]]; simpl in *; [|done].
  by rewrite IH.
Qed.

Lemma fallback_isStreaming now r rs s :
  isStreaming (fallback now r rs s).1 = isStreaming s.
Proof.
  unfold fallback. destruct r as [|st|st d]; simpl; try done.
  by rewrite reveal_isStreaming.
Qed.

(** C7, as stated, fails on the fallback path.  While the text of a fallback
    response is being revealed -- the placeholder Turn is accumulating, the
    timer has not finished -- the [isStreaming] flag is not set, and a submit
    call is not rejected: it appends a second user Turn and issues a second
    fallback request.  The input controls are disabled at that point, and
    that is all that stands in the way: once a stray [stream_end] has enabled
    them, the user can type and submit in the middle of the reveal. *)
Lemma busy_submit_counterexample :
  let s := revealing.1 in
  let again := sendMessage 400 (typeText (js "again") s) in
  let noisy := handleWSMessage 350 (WSStreamEnd (js "zz") None [] (js "faq")) s in
  let again' := sendMessage 400 (typeText (js "again") noisy) in
  revealing.2 ≠ None ∧ isStreaming s = false ∧
  (λ p, ChatMessage.isStreaming p.2) <$> findById (js "300") (messages s)
    = Some (Some true) ∧
  messages again
    = messages s ++ [ChatMessage.mk (js "400") user (js "again") None None
                       400 None] ∧
  head (log again) = Some (Fetch (js "again") (Some (js "c1")) (js "v1")) ∧
  textareaDisabled s = true ∧ sendBtnDisabled s = true ∧
  messages noisy = messages s ∧
  textareaDisabled noisy = false ∧ sendBtnDisabled noisy = false ∧
  messages again' = messages again ∧
  head (log again') = Some (Fetch (js "again") (Some (js "c1")) (js "v1")).
Proof. by vm_compute. Qed.

(** C7, amended.  The Controller has one StreamSession slot, the fields
    [isStreaming], [currentStreamId] and [currentStreamContent].  A submit
    call made while [isStreaming] is set -- on the live path, from
    [stream_start] to [stream_end] or [error] -- is rejected rather than
    queued: the state is unchanged, so no user Turn is appended, nothing is
    sent over the transport and no fallback request is issued.  The fallback
    path never sets the flag (its exchange leaves it as it found it), so
    there it is only the disabled input controls that keep a second
    submission away; a submit call accepted with the flag clear disables
    them. *)
Theorem submit_rejected_while_streaming s now :
  (isStreaming s = true → sendMessage now s = s) ∧
  (∀ now' r rs, isStreaming (fallback now' r rs s).1 = isStreaming s) ∧
  (isStreaming s = false → truthy (trim (textareaValue s)) = true →
     textareaDisabled (sendMessage now s) = true ∧
     sendBtnDisabled (sendMessage now s) = true ∧
     isStreaming (sendMessage now s) = false).
Proof.
  split; [|split].
  - intros H. unfold sendMessage. by rewrite H orb_true_r.
  - intros. apply fallback_isStreaming.
  - intros H1 H2. unfold sendMessage. rewrite H1 H2 /=.
    by destruct (wsConnected _).
Qed.

Lemma submit_rejected_while_streaming_witness :
  isStreaming streaming = true ∧
  sendMessage 400 (typeText (js "again") streaming)
    = typeText (js "again") streaming.
Proof.
  split; [reflexivity|].
  exact (proj1 (submit_rejected_while_streaming
                  (typeText (js "again") streaming) 400) eq_refl).
Defined.

Lemma chunkSize_bounds r : unitDraw r → (3 ≤ chunkSize r ≤ 8)%Z.
Proof.
  intros [H0 H1]. unfold chunkSize.
  assert (0 ≤ Qfloor (r * 6))%Z.
  { change 0%Z with (Qfloor 0). apply Qfloor_resp_le.
    apply Qmult_le_0_compat; [done|by compute]. }
  assert (Qfloor (r * 6) < 6)%Z.
  { rewrite Zlt_Qlt. eapply Qle_lt_trans; [apply Qfloor_le|].
    change (inject_Z 6) with (1 * 6)%Q.
    apply Qmult_lt_compat_r; [by compute|done]. }
  lia.
Qed.

Lemma updateStored_fields mid text srcs intent s :
  let s' := updateStored mid text srcs intent s in
  messages s'
    = match findById mid (messages s) with
      | Some (i, m) => <[i := finalized text srcs intent m]> (messages s)
      | None => messages s
      end ∧
  log s' = log s ∧ conversationId s' = conversationId s ∧
  isStreaming s' = isStreaming s ∧ ws s' = ws s ∧
  typingIndicator s' = typingIndicator s ∧
  textareaDisabled s' = textareaDisabled s ∧
  sendBtnDisabled s' = sendBtnDisabled s.
Proof.
  simpl. unfold updateStored. by destruct (findById _ _) as [[? ?]|].
Qed.

(** The reveal timer, given enough draws, runs to its end: it shows a
    growing series of prefixes, each 3 to 8 code units longer than the one
    before, then renders the full text, stores it and enables the input. *)
Lemma reveal_runs rs f s :
  let text := RestData.content (data f) in
  let len := Z.of_nat (length text) in
  Forall unitDraw rs → (i f ≤ len)%Z →
  (len - i f < 3 * Z.of_nat (length rs))%Z →
  ∃ ns s',
    reveal rs f s = (s', None) ∧
    log s' = DomRender (msgId f) text
               :: reverse ((λ n, DomSetText (msgId f) (take (Z.to_nat n) text)) <$> ns)
               ++ log s ∧
    Forall (λ d, 3 ≤ d ≤ 8)%Z (increments (i f) ns) ∧
    Forall (λ n, n < len)%Z ns ∧
    (i f + 8 < len → ns ≠ [])%Z ∧ (len ≤ i f + 3 → ns = [])%Z ∧
    messages s'
      = messages (updateStored (msgId f) text (RestData.sources (data f))
                    (RestData.intent (data f)) s) ∧
    conversationId s' = conversationId s ∧ isStreaming s' = isStreaming s ∧
    ws s' = ws s ∧ typingIndicator s' = typingIndicator s ∧
    textareaDisabled s' = false ∧ sendBtnDisabled s' = false.
Proof.
  intros text len Hrs. revert f s text len.
  induction Hrs as [|r rs Hr Hrs IH]; intros f s text len Hle Hlen.
  { simpl in Hlen. lia. }
  pose proof (chunkSize_bounds r Hr) as Hcs.
  simpl. unfold revealTick. fold text. fold len.
  case_bool_decide as Hend.
  - exists [], (sendViaRest_finally
                  (updateStored (msgId f) text (RestData.sources (data f))
                     (RestData.intent (data f)) (emit (DomRender (msgId f) text) s))).
    destruct (updateStored_fields (msgId f) text (RestData.sources (data f))
                (RestData.intent (data f)) (emit (DomRender (msgId f) text) s))
      as (Hm & Hl & Hc & Hi & Hw & Hty & _).
    destruct (updateStored_fields (msgId f) text (RestData.sources (data f))
                (RestData.intent (data f)) s) as (Hm' & _).
    cbv zeta in *. simpl in *.
    rewrite Hm Hm' Hl Hc Hi Hw Hty.
    repeat split; try done. intros; lia.
  - set (f' := {| msgId := msgId f; data := data f; i := (i f + chunkSize r)%Z |}).
    set (s1 := emit (DomSetText (msgId f) (take (Z.to_nat (i f + chunkSize r)) text)) s).
    destruct (IH f' s1) as (ns & s' & Hrun & Hlog & Hinc & Hlt & Hne & Hnil & Hm & Hrest).
    { simpl. fold text. fold len. lia. }
    { simpl. fold text. fold len. simpl in Hlen. lia. }
    simpl in *. fold text in Hrun, Hlog, Hm. fold len in Hlt, Hne, Hnil.
    exists ((i f + chunkSize r)%Z :: ns), s'.
    split; [done|]. split.
    { rewrite Hlog fmap_cons reverse_cons -assoc. done. }
    split.
    { simpl. constructor; [lia|done]. }
    split; [constructor; [lia|done]|].
    split; [done|]. split; [intros; lia|].
    split; [|done].
    rewrite Hm.
    destruct (updateStored_fields (msgId f) text (RestData.sources (data f))
                (RestData.intent (data f)) s1) as (-> & _).
    destruct (updateStored_fields (msgId f) text (RestData.sources (data f))
                (RestData.intent (data f)) s) as (-> & _).
    done.
Qed.

Lemma since_extend s s' new : log s' = new ++ log s → since s s' = reverse new.
Proof.
  intros E. unfold since. rewrite E length_app.
  replace (length new + length (log s) - length (log s)) with (length new) by lia.
  by rewrite take_app_length.
Qed.

Lemma phases_updates {A} (g : A → Effect) (xs : list A) :
  (∀ x, phase (g x) = Some Update) →
  phases (g <$> xs) = replicate (length xs) Update.
Proof.
  intros Hg. unfold phases. induction xs as [|x xs IH]; [done|].
  cbn. by rewrite Hg IH.
Qed.

Lemma phases_app es1 es2 : phases (es1 ++ es2) = phases es1 ++ phases es2.
Proof. apply omap_app. Qed.

Lemma hasElement_true mid s i m :
  findById mid (messages s) = Some (i, m) → hasElement mid s = true.
Proof. intros E. unfold hasElement. by rewrite E. Qed.

(** On the live path every chunk for a Turn that has an element is shown:
    one update per chunk. *)
Lemma chunks_update (chunks : list (Z * jsstring)) mid s :
  hasElement mid s = true →
  let s' := handleAll ((λ p, (p.1, WSStreamChunk p.2 mid)) <$> chunks) s in
  ∃ new, log s' = new ++ log s ∧
         phases (reverse new) = replicate (length chunks) Update.
Proof.
  revert s. induction chunks as [|[now c] chunks IH]; intros s Hel.
  - by exists [].
  - rewrite fmap_cons handleAll_cons.
    set (s1 := handleWSMessage now (WSStreamChunk c mid) s).
    assert (log s1 = DomSetText mid (currentStreamContent s ++ c) :: log s
            ∧ hasElement mid s1 = true) as [Hl1 Hel1].
    { unfold s1. simpl. unfold updateStreamingMessage, hasElement in *. simpl.
      destruct (findById mid (messages s)) eqn:E; [|done]. simpl. by rewrite E. }
    destruct (IH s1 Hel1) as (new & Hnew & Hph).
    exists (new ++ [DomSetText mid (currentStreamContent s ++ c)]).
    cbv zeta in *. cbn [fst snd] in *.
    split; [by rewrite Hnew Hl1 -assoc|].
    by rewrite reverse_app phases_app Hph.
Qed.

(** The event sequence of the live path: start, one update per chunk,
    finalize. *)
Lemma live_lifecycle s t0 t1 mid (chunks : list (Z * jsstring)) conv srcs intent :
  let sigs := (t0, WSStreamStart mid)
                :: ((λ p, (p.1, WSStreamChunk p.2 mid)) <$> chunks)
                ++ [(t1, WSStreamEnd mid conv srcs intent)] in
  lifecycle (length chunks) (phases (since s (handleAll sigs s))).
Proof.
  intros sigs. unfold sigs. clear sigs.
  rewrite handleAll_cons handleAll_app.
  set (s1 := handleWSMessage t0 (WSStreamStart mid) s).
  set (p := ChatMessage.mk mid assistant [] None None t0 (Some true)).
  destruct (findById_snoc mid (messages s) p eq_refl) as (i & m0 & Hfind & _).
  assert (hasElement mid s1 = true) as Hel1 by (by eapply hasElement_true).
  destruct (chunks_update chunks mid s1 Hel1) as (new & Hnew & Hph).
  destruct (chunks_accumulate ((λ p : Z * jsstring, (p.1, (p.2, mid))) <$> chunks) s1)
    as (Hm2 & _).
  rewrite -list_fmap_compose in Hm2.
  change ((λ p : Z * (jsstring * jsstring), (p.1, WSStreamChunk p.2.1 p.2.2))
            ∘ (λ p : Z * jsstring, (p.1, (p.2, mid))))
    with (λ p : Z * jsstring, (p.1, WSStreamChunk p.2 mid)) in Hm2.
  cbv zeta in *.
  set (s2 := handleAll _ s1) in *.
  assert (log (handleAll [(t1, WSStreamEnd mid conv srcs intent)] s2)
          = DomRender mid (currentStreamContent s2) :: log s2) as Hl3.
  { simpl. unfold finalizeMessage, updateStored, hasElement.
    pose proof Hfind as (_ & Hid & _)%findById_Some.
    destruct (truthyOpt conv); simpl; rewrite Hm2 Hfind /=;
      by erewrite findById_insert; [|exact Hfind|]. }
  erewrite since_extend; last first.
  { rewrite Hl3 Hnew. simpl.
    instantiate (1 := DomRender mid (currentStreamContent s2) :: new ++ [DomAppend p]).
    by rewrite /= -assoc. }
  rewrite reverse_cons reverse_app /= !phases_app Hph. done.
Qed.

(** The fallback exchange on a parsed body, given enough draws. *)
Lemma fallback_runs s now status d rs :
  let text := RestData.content d in
  let mid := placeholderId now d in
  let p := ChatMessage.mk mid assistant [] None None now (Some true) in
  Forall unitDraw rs → length text < 3 * length rs →
  ∃ ns s' i m0,
    fallback now (Parsed status d) rs s = (s', None) ∧
    findById mid (messages s ++ [p]) = Some (i, m0) ∧
    (findById mid (messages s) = None → i = length (messages s) ∧ m0 = p) ∧
    messages s'
      = <[i := finalized text (RestData.sources d) (RestData.intent d) m0]>
          (messages s ++ [p]) ∧
    since s s'
      = DomAppend p
          :: ((λ n, DomSetText mid (take (Z.to_nat n) text)) <$> ns)
          ++ [DomRender mid text] ∧
    Forall (λ d, 3 ≤ d ≤ 8)%Z (increments 0 ns) ∧
    Forall (λ n, n < Z.of_nat (length text))%Z ns ∧
    (8 < length text → ns ≠ []) ∧ (length text ≤ 3 → ns = []) ∧
    conversationId s' = RestData.conversation_id d ∧
    isStreaming s' = isStreaming s ∧ ws s' = ws s ∧
    typingIndicator s' = false ∧
    textareaDisabled s' = false ∧ sendBtnDisabled s' = false.
Proof.
  intros text mid p Hrs Hlen.
  set (s0 := addMessage p (set_conversationId (RestData.conversation_id d)
                             (removeTypingIndicator s))).
  set (f0 := {| msgId := mid; data := d; i := 0 |}).
  assert (fallback now (Parsed status d) rs s = reveal rs f0 s0) as -> by done.
  destruct (reveal_runs rs f0 s0 Hrs)
    as (ns & s' & Hrun & Hlog & Hinc & Hlt & Hne & Hnil & Hm & Hc & Hi & Hw
        & Hty & Hd1 & Hd2); [unfold f0, text in *; cbn [i data]; lia..|].
  destruct (findById_snoc mid (messages s) p eq_refl) as (i & m0 & Hfind & Hnew).
  destruct (updateStored_fields mid text (RestData.sources d) (RestData.intent d) s0)
    as (Hm0 & _).
  cbv zeta in Hm0. rewrite [messages s0]/= Hfind in Hm0.
  simpl in Hlog, Hinc, Hlt, Hne, Hnil, Hm, Hc, Hi, Hw, Hty.
  fold text in Hlog, Hlt, Hne, Hnil, Hm.
  exists ns, s', i, m0.
  split; [done|]. split; [done|]. split; [done|].
  split; [by rewrite Hm|]. split.
  { erewrite since_extend; last first.
    - rewrite Hlog.
      instantiate (1 := DomRender mid text
        :: reverse ((λ n, DomSetText mid (take (Z.to_nat n) text)) <$> ns)
        ++ [DomAppend p]).
      by rewrite /= -assoc.
    - by rewrite reverse_cons reverse_app reverse_involutive /=. }
  split; [done|]. split; [done|].
  split; [intros; apply Hne; lia|]. split; [intros; apply Hnil; lia|].
  done.
Qed.

(** C8, as stated, fails.  A fallback response whose text is ["ok"] is
    revealed with no content update at all, whatever the draw: the event
    sequence is start, finalize. *)
Lemma short_reply_counterexample :
  let submitted := sendMessage 200 (typeText (js "hi") offline) in
  let reply :=
    Parsed 200 (RestData.mk (js "c1") None (js "ok") (Some []) (Some (js "faq"))) in
  let least := fallback 300 reply [0]%Q submitted in
  let most := fallback 300 reply [99 # 100]%Q submitted in
  least.2 = None ∧ most.2 = None ∧
  phases (since submitted least.1) = [Start; Finalize] ∧
  phases (since submitted most.1) = [Start; Finalize] ∧
  contentOf (js "300") least.1 = Some (js "ok") ∧
  conversationId least.1 = js "c1".
Proof. by vm_compute. Qed.

(** C8, amended.  A fallback submission whose response carries the text that
    the chunks of a live submission add up to ends with the same final Turn
    content, and both show the same shape of events: a bubble is opened, then
    updated zero or more times, then finalized.  The live path has one update
    per chunk.  The fallback reveal, given draws in [0, 1) and enough of them,
    finishes; each of its updates shows a prefix 3 to 8 code units longer than
    the one before; there is none when the text has at most 3 code units and
    at least one when it has more than 8.  The conversation identifier of the
    response is stored. *)
Theorem fallback_matches_live s now status d rs
    sl t0 t1 mid (chunks : list (Z * jsstring)) conv srcs intent :
  let text := RestData.content d in
  let live := handleAll ((t0, WSStreamStart mid)
                           :: ((λ p, (p.1, WSStreamChunk p.2 mid)) <$> chunks)
                           ++ [(t1, WSStreamEnd mid conv srcs intent)]) sl in
  let fb := fallback now (Parsed status d) rs s in
  Forall unitDraw rs → length text < 3 * length rs →
  concat (chunks.*2) = text →
  fb.2 = None ∧
  contentOf (placeholderId now d) fb.1 = Some text ∧
  contentOf mid live = Some text ∧
  lifecycle (length chunks) (phases (since sl live)) ∧
  (∃ ns,
     since s fb.1
       = DomAppend (ChatMessage.mk (placeholderId now d) assistant [] None None
                      now (Some true))
           :: ((λ n, DomSetText (placeholderId now d) (take (Z.to_nat n) text)) <$> ns)
           ++ [DomRender (placeholderId now d) text] ∧
     lifecycle (length ns) (phases (since s fb.1)) ∧
     Forall (λ d, 3 ≤ d ≤ 8)%Z (increments 0 ns) ∧
     Forall (λ n, n < Z.of_nat (length text))%Z ns ∧
     (8 < length text → ns ≠ []) ∧ (length text ≤ 3 → ns = [])) ∧
  conversationId fb.1 = RestData.conversation_id d ∧
  textareaDisabled fb.1 = false ∧ sendBtnDisabled fb.1 = false.
Proof.
  intros text live fb Hrs Hlen Hcat.
  destruct (fallback_runs s now status d rs Hrs Hlen)
    as (ns & s' & i & m0 & Hfb & Hfind & _ & Hm & Hsince & Hinc & Hlt & Hne
        & Hnil & Hc & _ & _ & _ & Hd1 & Hd2).
  unfold fb. rewrite Hfb /=. fold text in Hm, Hsince, Hlt, Hne, Hnil.
  split; [done|]. split.
  { unfold contentOf. rewrite Hm.
    erewrite findById_insert; [done|exact Hfind|].
    by apply findById_Some in Hfind as (_ & ? & _). }
  split.
  { destruct (live_stream_messages sl t0 t1 mid chunks conv srcs intent)
      as (j & m & Hj & _ & Hlive & _).
    unfold contentOf, live. rewrite Hlive Hcat.
    erewrite findById_insert; [done|exact Hj|].
    by apply findById_Some in Hj as (_ & ? & _). }
  split; [apply live_lifecycle|]. split; [|done].
  exists ns. split; [done|]. split; [|done].
  unfold lifecycle. rewrite Hsince.
  change (DomAppend ?p :: ?l) with ([DomAppend p] ++ l).
  rewrite !phases_app phases_updates //.
Qed.

(** C9, as stated, fails for a non-success response.  The status of the
    response is never read: a response with status 500 whose body parses is
    taken as a reply, its text becomes the content of the assistant Turn and
    no apology Turn is made. *)
Lemma fallback_failure_counterexample :
  let submitted := sendMessage 200 (typeText (js "hi") offline) in
  let reply := Parsed 500 (RestData.mk (js "c1") None (js "oops") None None) in
  let ended := fallback 300 reply [0; 0]%Q submitted in
  ended.2 = None ∧
  messages ended.1
    = messages submitted
        ++ [ChatMessage.mk (js "300") assistant (js "oops") None None 300
              (Some false)] ∧
  Forall (λ m, ChatMessage.content m ≠ apology) (messages ended.1).
Proof.
  vm_compute. repeat split; try done. repeat constructor; done.
Qed.

(** C9, amended.  When the fallback request fails -- [fetch] rejects, or the
    body of the response is not JSON -- the failure is caught and turned into
    exactly one assistant Turn with the fixed apology text, appended after the
    existing Turns; the typing indicator is removed and the input is enabled;
    no request is issued and nothing is written to the transport, so the
    request is not retried.  The status of a response is not looked at. *)
Theorem fallback_failure_is_one_apology s now r rs :
  failed r = true →
  let turn := ChatMessage.mk (toString now) assistant apology None None now None in
  let s' := (fallback now r rs s).1 in
  (fallback now r rs s).2 = None ∧
  messages s' = messages s ++ [turn] ∧
  log s' = DomAppend turn :: log s ∧
  ws s' = ws s ∧
  typingIndicator s' = false ∧
  textareaDisabled s' = false ∧ sendBtnDisabled s' = false ∧
  conversationId s' = conversationId s ∧ isStreaming s' = isStreaming s.
Proof. by destruct r. Qed.

Lemma fallback_failure_is_one_apology_witness :
  failed (JsonRejected 502) = true ∧
  messages (fallback 300 (JsonRejected 502) [0]%Q
              (sendMessage 200 (typeText (js "hi") offline))).1
    = messages (sendMessage 200 (typeText (js "hi") offline))
        ++ [ChatMessage.mk (js "300") assistant apology None None 300 None].
Proof.
  split; [reflexivity|].
  exact (proj1 (proj2 (fallback_failure_is_one_apology
                         (sendMessage 200 (typeText (js "hi") offline)) 300
                         (JsonRejected 502) [0]%Q eq_refl))).
Defined.

Lemma fallback_matches_live_witness :
  Forall unitDraw [1 # 2; 0; 9 # 10; 1 # 3]%Q ∧
  contentOf (js "300")
    (fallback 300 (Parsed 200 helloWorld) [1 # 2; 0; 9 # 10; 1 # 3]%Q
       (sendMessage 200 (typeText (js "hi") offline))).1
    = Some (js "Hello world") ∧
  contentOf (js "m1")
    (handleAll [(300%Z, WSStreamStart (js "m1"));
                (301%Z, WSStreamChunk (js "Hello ") (js "m1"));
                (302%Z, WSStreamChunk (js "world") (js "m1"));
                (303%Z, WSStreamEnd (js "m1") None [] (js "faq"))] online)
    = Some (js "Hello world").
Proof.
  assert (Forall unitDraw [1 # 2; 0; 9 # 10; 1 # 3]%Q) as H
    by (repeat constructor; by compute).
  split; [exact H|].
  pose proof (fallback_matches_live
                (sendMessage 200 (typeText (js "hi") offline)) 300 200
                helloWorld [1 # 2; 0; 9 # 10; 1 # 3]%Q online 300 303 (js "m1")
                [(301%Z, js "Hello "); (302%Z, js "world")] None [] (js "faq")
                H ltac:(vm_compute; lia) eq_refl) as T.
  split; [exact (proj1 (proj2 T))|exact (proj1 (proj2 (proj2 T)))].
Defined.

(** The two scenarios of the specification.  Live: "hi" is submitted with
    the transport open, then [stream_start], two chunks and [stream_end]
    arrive for [m1]. *)
Example scenario_live :
  let submitted := sendMessage 200 (typeText (js "hi") online) in
  let ended :=
    handleAll [(300%Z, WSStreamStart (js "m1"));
               (301%Z, WSStreamChunk (js "He") (js "m1"));
               (302%Z, WSStreamChunk (js "llo") (js "m1"));
               (303%Z, WSStreamEnd (js "m1") None [] (js "faq"))] submitted in
  messages submitted
    = messages online ++ [ChatMessage.mk (js "200") user (js "hi") None None
                            200 None] ∧
  (WebSocketClient.out <$> ws submitted)
    = (λ c, WebSocketClient.SocketSend 0
              (WSMessage.mk TMessage (Some (js "hi")) None)
              :: WebSocketClient.out c) <$> ws online ∧
  messages ended
    = messages submitted
        ++ [ChatMessage.mk (js "m1") assistant (js "Hello") (Some [])
              (Some (js "faq")) 300 (Some false)] ∧
  phases (since submitted ended) = [Start; Update; Update; Finalize].
Proof. by vm_compute. Qed.

(** Fallback: "hi" is submitted with the transport not open and the response
    carries "ok" and the conversation identifier [c1]. *)
Example scenario_fallback :
  let submitted := sendMessage 200 (typeText (js "hi") offline) in
  let reply :=
    Parsed 200 (RestData.mk (js "c1") None (js "ok") (Some []) (Some (js "faq"))) in
  let ended := (fallback 300 reply [1 # 2]%Q submitted).1 in
  head (log submitted) = Some (Fetch (js "hi") None (js "v1")) ∧
  (ChatMessage.content <$> assistantTurns (messages ended))
    = [js "Hi"; js "ok"] ∧
  conversationId ended = js "c1".
Proof. by vm_compute. Qed.

End StreamingSessionController.

(** * Further properties of the Connection Manager *)

Section ConnectionManagerFurther.

Import WebSocketClient.

Implicit Types (c : WebSocketClient.t) (e : Event) (es : list Event).

Lemma singleton_if_tracked (X : gset positive) (o : option positive) h :
  (∀ x, x ∈ X → o = Some x) → h ∈ X → o = Some h ∧ X = {[h]}.
Proof.
  intros H Hh. split; [by apply H|].
  apply set_eq. intros x. rewrite elem_of_singleton. split.
  - intros Hx. pose proof (H _ Hx). pose proof (H _ Hh). congruence.
  - by intros ->.
Qed.

Lemma reachable_run es c : reachable c → reachable (run es c).
Proof.
  revert c. induction es as [|e es IH]; intros c H; [done|].
  apply IH. by constructor.
Qed.

Lemma reachable_openClient : reachable openClient.
Proof. apply reachable_step, reachable_connect. Qed.

Lemma link_timer_closed c h :
  singleLink c → h ∈ timeouts c → ∀ k st, sockets c !! k = Some st → st = CLOSED.
Proof.
  intros [Hs _] Hh k st Hk. destruct (decide (st = CLOSED)) as [|Hn]; [done|].
  destruct (Hs _ _ Hk Hn) as [_ He]. set_solver.
Qed.

Lemma closed_not_connected c :
  (∀ k st, sockets c !! k = Some st → st = CLOSED) → isConnected c = false.
Proof.
  intros Hall. unfold isConnected. destruct (ws c) as [k|]; [|done].
  apply bool_decide_eq_false_2. intros Hk. by apply Hall in Hk.
Qed.

Lemma closed_no_interval c :
  singleLink c → (∀ k st, sockets c !! k = Some st → st = CLOSED) →
  intervals c = ∅.
Proof.
  intros [_ Ho] Hall. apply set_eq. intros x. split; [|set_solver].
  intros (k & _ & Hopen)%Ho. by apply Hall in Hopen.
Qed.

(** X1.  In every state the widget drives the client into, at most one
    socket is not closed, and it is the current one: a socket that was
    replaced is closed. *)
Theorem one_live_socket c k st :
  reachable c → sockets c !! k = Some st → st ≠ CLOSED →
  ws c = Some k ∧
  ∀ k' st', sockets c !! k' = Some st' → st' ≠ CLOSED → k' = k.
Proof.
  intros [_ [Hs _]]%reachable_link Hk Hst.
  destruct (Hs _ _ Hk Hst) as [Hw _]. split; [done|].
  intros k' st' Hk' Hst'. destruct (Hs _ _ Hk' Hst') as [Hw' _]. congruence.
Qed.

Lemma one_live_socket_witness :
  reachable twiceDropped ∧ sockets twiceDropped !! 2 = Some CONNECTING ∧
  ws twiceDropped = Some 2 ∧
  ∀ k' st', sockets twiceDropped !! k' = Some st' → st' ≠ CLOSED → k' = 2.
Proof.
  assert (reachable twiceDropped) as H.
  { apply reachable_run, reachable_openClient. }
  split; [exact H|]. split; [reflexivity|].
  exact (one_live_socket twiceDropped 2 CONNECTING H eq_refl ltac:(discriminate)).
Defined.

(** X2.  In every such state at most one reconnect timer is armed, it is the
    one whose handle the client holds, and while it is armed every socket is
    closed: a reconnect is never pending beside a live connection. *)
Theorem one_reconnect_timer c h :
  reachable c → h ∈ timeouts c →
  reconnectTimeout c = Some h ∧ timeouts c = {[h]} ∧
  isConnected c = false ∧
  ∀ k st, sockets c !! k = Some st → st = CLOSED.
Proof.
  intros [[Ht _] Hlink]%reachable_link Hh.
  destruct (singleton_if_tracked _ _ _ Ht Hh) as [Hrt Hone].
  pose proof (link_timer_closed c h Hlink Hh) as Hall.
  split; [done|]. split; [done|]. split; [|done].
  by apply closed_not_connected.
Qed.

Lemma one_reconnect_timer_witness :
  reachable (step (EvClose 0) openClient) ∧
  2%positive ∈ timeouts (step (EvClose 0) openClient) ∧
  timeouts (step (EvClose 0) openClient) = {[2%positive]} ∧
  isConnected (step (EvClose 0) openClient) = false.
Proof.
  assert (reachable (step (EvClose 0) openClient)) as H.
  { apply reachable_step, reachable_openClient. }
  assert (2%positive ∈ timeouts (step (EvClose 0) openClient)) as Hh.
  { vm_compute. set_solver. }
  split; [exact H|]. split; [exact Hh|].
  pose proof (one_reconnect_timer _ _ H Hh) as T.
  split; [exact (proj1 (proj2 T))|exact (proj1 (proj2 (proj2 T)))].
Defined.



(** What one host event does to the reconnect policy: the maximum is kept;
    either nothing is scheduled and the counter is kept or reset, or one
    attempt is scheduled by the formula and the counter moves up by one. *)
Lemma step_policy e c :
  maxReconnectAttempts (step e c) = maxReconnectAttempts c ∧
  ∃ new, out (step e c) = new ++ out c ∧
    ((omap delayOf new = [] ∧
      (reconnectAttempts (step e c) = reconnectAttempts c ∨
       reconnectAttempts (step e c) = 0%N))
     ∨ ((reconnectAttempts c < maxReconnectAttempts c)%N ∧
        reconnectAttempts (step e c) = (reconnectAttempts c + 1)%N ∧
        omap delayOf new = [N.min (1000 * 2 ^ reconnectAttempts c) 30000])).
Proof.
  assert (maxReconnectAttempts c = maxReconnectAttempts c ∧
     ∃ new, out c = new ++ out c ∧
       ((omap delayOf new = [] ∧
         (reconnectAttempts c = reconnectAttempts c ∨ reconnectAttempts c = 0%N))
        ∨ ((reconnectAttempts c < maxReconnectAttempts c)%N ∧
           reconnectAttempts c = (reconnectAttempts c + 1)%N ∧
           omap delayOf new = [N.min (1000 * 2 ^ reconnectAttempts c) 30000])))
    as Hsame.
  { split; [done|]. exists []. split; [done|]. left. by split; [|left]. }
  destruct e as [k|k payload|k|k|h|h]; simpl.
  - destruct (sockets c !! k) as [[]|]; try exact Hsame.
    split; [done|]. eexists [_; _]. split; [done|]. left. by split; [|right].
  - destruct (sockets c !! k) as [[]|]; try exact Hsame.
    destruct payload as [d|]; [|exact Hsame].
    split; [done|]. exists [OnMessage d]. split; [done|]. left. by split; [|left].
  - exact Hsame.
  - assert (∀ l, maxReconnectAttempts (onclose (set_sockets l c))
                 = maxReconnectAttempts c ∧
       ∃ new, out (onclose (set_sockets l c)) = new ++ out c ∧
         ((omap delayOf new = [] ∧
           (reconnectAttempts (onclose (set_sockets l c)) = reconnectAttempts c ∨
            reconnectAttempts (onclose (set_sockets l c)) = 0%N))
          ∨ ((reconnectAttempts c < maxReconnectAttempts c)%N ∧
             reconnectAttempts (onclose (set_sockets l c))
               = (reconnectAttempts c + 1)%N ∧
             omap delayOf new = [N.min (1000 * 2 ^ reconnectAttempts c) 30000])))
      as Hclose.
    { intros l. unfold onclose.
      set (c2 := emit OnClose (stopPing (set_sockets l c))).
      destruct (stopPing_fields (set_sockets l c))
        as (_ & _ & Hra & Hm & _ & _ & Ho & _).
      assert (reconnectAttempts c2 = reconnectAttempts c ∧
              maxReconnectAttempts c2 = maxReconnectAttempts c ∧
              out c2 = OnClose :: out c) as (Hra2 & Hm2 & Ho2).
      { unfold c2. simpl. by rewrite Hra Hm Ho. }
      destruct (N.le_gt_cases (maxReconnectAttempts c2) (reconnectAttempts c2))
        as [Hle|Hgt].
      - rewrite tryReconnect_stop //. split; [done|].
        exists [OnClose]. split; [done|]. left. split; [done|by left].
      - destruct (tryReconnect_go c2 Hgt) as (Ho3 & Hra3 & _ & _ & Hm3 & _).
        rewrite Hm3 Ho3 Hra3 Hra2 Ho2 Hm2. split; [done|].
        eexists [_; _]. split; [done|]. right.
        split; [lia|]. by split. }
    destruct (sockets c !! k) as [[]|]; try apply Hclose; exact Hsame.
  - destruct (bool_decide _); [|exact Hsame].
    split; [done|]. eexists [_]. split; [done|]. left. by split; [|left].
  - destruct (bool_decide _); [|exact Hsame].
    unfold pingCallback, send.
    destruct (ws c) as [k|]; [|exact Hsame].
    destruct (bool_decide _); [|exact Hsame].
    split; [done|]. eexists [_]. split; [done|]. left. by split; [|left].
Qed.

Lemma send_policy m c :
  maxReconnectAttempts (send m c) = maxReconnectAttempts c ∧
  reconnectAttempts (send m c) = reconnectAttempts c ∧
  omap delayOf (out (send m c)) = omap delayOf (out c).
Proof.
  unfold send. destruct (ws c) as [k|]; [|done].
  by destruct (bool_decide _).
Qed.

(** X4.  In every state the widget drives the client into, the maximum is
    still 5, the attempt counter never exceeds it, and every delay that was
    ever scheduled is one of 1, 2, 4, 8 and 16 seconds: the cap of 30 seconds
    is never reached. *)
Theorem attempts_stay_bounded c :
  reachable c →
  maxReconnectAttempts c = 5%N ∧ (reconnectAttempts c ≤ 5)%N ∧
  Forall (λ d, d ∈ [1000; 2000; 4000; 8000; 16000]%N) (scheduledDelays c).
Proof.
  intros H.
  assert (maxReconnectAttempts c = 5%N ∧ (reconnectAttempts c ≤ 5)%N ∧
          Forall (λ d, d ∈ [1000; 2000; 4000; 8000; 16000]%N)
            (omap delayOf (out c))) as (Hm & Hra & Hd).
  { induction H as [url sid sg|e c _ (Hm & Hra & Hd)|m c _ (Hm & Hra & Hd)].
    - split; [done|]. split; [done|]. simpl. constructor.
    - destruct (step_policy e c) as (Hm' & new & Ho & Hcase).
      rewrite Hm' Ho omap_app. split; [done|].
      destruct Hcase as [[Hnone Hra']|(Hlt & Hra' & Hnew)].
      + rewrite Hnone /=. split; [|done]. destruct Hra' as [->| ->]; lia.
      + rewrite Hnew Hra'. split; [lia|]. constructor; [|done].
        rewrite Hm in Hlt.
        assert (reconnectAttempts c ∈ [0; 1; 2; 3; 4]%N) as Hin.
        { destruct (reconnectAttempts c) as [|p] eqn:E; [set_solver|].
          assert (p = 1 ∨ p = 2 ∨ p = 3 ∨ p = 4)%positive
            as [->|[->|[->| ->]]] by lia; set_solver. }
        repeat (apply elem_of_cons in Hin as [->|Hin]; [vm_compute; set_solver|]).
        by apply elem_of_nil in Hin.
    - destruct (send_policy m c) as (-> & -> & ->). done. }
  split; [done|]. split; [done|].
  unfold scheduledDelays. by apply Forall_reverse.
Qed.

Lemma attempts_stay_bounded_witness :
  reachable fiveAttempts ∧ reconnectAttempts fiveAttempts = 5%N ∧
  Forall (λ d, d ∈ [1000; 2000; 4000; 8000; 16000]%N)
    (scheduledDelays fiveAttempts).
Proof.
  assert (reachable fiveAttempts) as H by apply reachable_run, reachable_connect.
  split; [exact H|]. split; [reflexivity|].
  exact (proj2 (proj2 (attempts_stay_bounded fiveAttempts H))).
Defined.

Lemma forwarded_emit d c : forwarded (emit (OnMessage d) c) = forwarded c ++ [d].
Proof. unfold forwarded. simpl. by rewrite reverse_cons. Qed.

(** X5.  The messages that arrive on an open socket are handed to the owner
    one by one in arrival order, each exactly once; a payload that does not
    parse is skipped without a trace, and nothing else in the client changes:
    no timer, no socket, no counter. *)
Theorem messages_forwarded_in_order c k (ps : list (option WSIncoming)) :
  sockets c !! k = Some OPEN →
  run (EvMessage k <$> ps) c
    = foldl (λ c d, emit (OnMessage d) c) c (omap id ps) ∧
  forwarded (run (EvMessage k <$> ps) c) = forwarded c ++ omap id ps.
Proof.
  revert c. induction ps as [|[d|] ps IH]; intros c Hk.
  - simpl. by rewrite app_nil_r.
  - assert (run (EvMessage k <$> Some d :: ps) c
            = run (EvMessage k <$> ps) (emit (OnMessage d) c)) as ->.
    { rewrite fmap_cons /run /=. by rewrite Hk. }
    destruct (IH (emit (OnMessage d) c) Hk) as [-> ->].
    split; [done|]. rewrite forwarded_emit. simpl. by rewrite -assoc.
  - assert (run (EvMessage k <$> None :: ps) c = run (EvMessage k <$> ps) c) as ->.
    { rewrite fmap_cons /run /=. by rewrite Hk. }
    by destruct (IH c Hk) as [-> ->].
Qed.

Lemma messages_forwarded_in_order_witness :
  sockets openClient !! 0 = Some OPEN ∧
  forwarded (run (EvMessage 0 <$> [Some (WSStreamStart (js "m1")); None;
                                    Some (WSStreamChunk (js "He") (js "m1"))])
               openClient)
    = forwarded openClient
        ++ [WSStreamStart (js "m1"); WSStreamChunk (js "He") (js "m1")].
Proof.
  split; [reflexivity|].
  exact (proj2 (messages_forwarded_in_order openClient 0
                  [Some (WSStreamStart (js "m1")); None;
                   Some (WSStreamChunk (js "He") (js "m1"))] eq_refl)).
Defined.

Lemma reachable_max c : reachable c → maxReconnectAttempts c = 5%N.
Proof.
  induction 1 as [url sid sg|e c _ IH|m c _ IH]; [done|..].
  - by destruct (step_policy e c) as (-> & _).
  - by destruct (send_policy m c) as (-> & _).
Qed.

(** The state after the close event of a live socket. *)
Lemma close_live c k st :
  sockets c !! k = Some st → st ≠ CLOSED →
  step (EvClose k) c
    = tryReconnect (emit OnClose (stopPing (set_sockets (<[k:=CLOSED]> (sockets c)) c))).
Proof. intros Hk Hst. simpl. rewrite Hk. by destruct st. Qed.

Lemma close_live_sockets c k st :
  reachable c → sockets c !! k = Some st → st ≠ CLOSED →
  sockets (step (EvClose k) c) = <[k:=CLOSED]> (sockets c) ∧
  ∀ k' st', sockets (step (EvClose k) c) !! k' = Some st' → st' = CLOSED.
Proof.
  intros [_ [Hs _]]%reachable_link Hk Hst.
  rewrite (close_live c k st) //.
  set (c2 := emit OnClose (stopPing (set_sockets (<[k:=CLOSED]> (sockets c)) c))).
  assert (sockets c2 = <[k:=CLOSED]> (sockets c)) as Hso2.
  { unfold c2. simpl.
    by destruct (stopPing_fields (set_sockets (<[k:=CLOSED]> (sockets c)) c))
      as (_ & -> & _). }
  assert (sockets (tryReconnect c2) = sockets c2) as ->.
  { destruct (N.le_gt_cases (maxReconnectAttempts c2) (reconnectAttempts c2))
      as [Hle|Hgt]; [by rewrite tryReconnect_stop|].
    by destruct (tryReconnect_go c2 Hgt) as (_ & _ & _ & _ & _ & _ & -> & _). }
  rewrite Hso2. split; [done|].
  assert (k < length (sockets c)) by (by eapply lookup_lt_Some).
  intros k' st' Hk'. destruct (decide (k' = k)) as [->|Hne].
  - rewrite list_lookup_insert_eq // in Hk'. congruence.
  - rewrite list_lookup_insert_ne // in Hk'.
    destruct (decide (st' = CLOSED)) as [|Hn]; [done|].
    destruct (Hs _ _ Hk' Hn) as [Hw' _].
    destruct (Hs _ _ Hk Hst) as [Hw _]. congruence.
Qed.

(** X6.  Recovery.  When the live socket of a client that has attempts left
    drops: the client is not connected, no ping is armed and exactly one
    reconnect timer is; when that timer fires a new socket is opened and
    becomes the current one; when that socket opens the client is connected
    again, the attempt counter is back at 0 and one KeepAlive interval is
    armed. *)
Theorem drop_then_recover c k st :
  reachable c → sockets c !! k = Some st → st ≠ CLOSED →
  (reconnectAttempts c < 5)%N →
  let n := length (sockets c) in
  let dropped := step (EvClose k) c in
  ∃ h,
    timeouts dropped = {[h]} ∧ isConnected dropped = false ∧
    intervals dropped = ∅ ∧
    let retried := step (EvTimeout h) dropped in
    ws retried = Some n ∧ sockets retried !! n = Some CONNECTING ∧
    timeouts retried = ∅ ∧
    let opened := step (EvOpen n) retried in
    isConnected opened = true ∧ reconnectAttempts opened = 0%N ∧
    ∃ p, intervals opened = {[p]} ∧ pingInterval opened = Some p.
Proof.
  intros Hr Hk Hst Hlt n dropped.
  pose proof (reachable_link c Hr) as [_ [Hs _]].
  destruct (Hs _ _ Hk Hst) as [_ Hnone].
  destruct (close_live_sockets c k st Hr Hk Hst) as [Hso Hall].
  fold dropped in Hso, Hall.
  assert (reachable dropped) as Hrd by (by constructor).
  pose proof (reachable_link dropped Hrd) as [_ Hlinkd].
  (* the timer *)
  set (c2 := emit OnClose (stopPing (set_sockets (<[k:=CLOSED]> (sockets c)) c))).
  assert (dropped = tryReconnect c2) as Hd by (by apply (close_live c k st)).
  destruct (stopPing_fields (set_sockets (<[k:=CLOSED]> (sockets c)) c))
    as (_ & _ & Hra & Hm & _ & Hto & _).
  destruct (tryReconnect_go c2) as (_ & _ & _ & Hto' & _).
  { unfold c2. simpl. rewrite Hra Hm /= (reachable_max c Hr). lia. }
  rewrite -Hd in Hto'.
  assert (timeouts dropped = {[nextHandle c2]}) as Hone.
  { rewrite Hto' /c2 /= Hto /= Hnone. set_solver. }
  exists (nextHandle c2).
  assert (nextHandle c2 ∈ timeouts dropped) as Hin by (rewrite Hone; set_solver).
  split; [done|]. split; [by apply closed_not_connected|].
  assert (intervals dropped = ∅) as Hiv by (by apply closed_no_interval).
  split; [done|].
  (* the retry *)
  assert (step (EvTimeout (nextHandle c2)) dropped
          = connect (clearTimeout (nextHandle c2) dropped)) as ->.
  { simpl. by rewrite bool_decide_eq_true_2. }
  set (retried := connect (clearTimeout (nextHandle c2) dropped)).
  assert (ws retried = Some (length (sockets dropped)) ∧
          sockets retried = sockets dropped ++ [CONNECTING] ∧
          timeouts retried = timeouts dropped ∖ {[nextHandle c2]} ∧
          intervals retried = intervals dropped) as (Hw & Hsor & Htor & Hivr).
  { by destruct (connect_fields (clearTimeout (nextHandle c2) dropped))
      as (? & ? & _ & _ & _ & _ & ? & ?). }
  clearbody retried.
  assert (length (sockets dropped) = n) as Hlen by (by rewrite Hso length_insert).
  rewrite Hlen in Hw.
  assert (sockets retried !! n = Some CONNECTING) as Hnew.
  { by rewrite Hsor -Hlen list_lookup_middle. }
  split; [done|]. split; [done|].
  split; [rewrite Htor Hone; set_solver|].
  (* the open *)
  assert (step (EvOpen n) retried
          = onopen (set_sockets (<[n:=OPEN]> (sockets retried)) retried)) as ->.
  { simpl. by rewrite Hnew. }
  set (opened := onopen (set_sockets (<[n:=OPEN]> (sockets retried)) retried)).
  assert (reconnectAttempts opened = 0%N ∧ ws opened = ws retried ∧
          sockets opened = <[n:=OPEN]> (sockets retried) ∧
          pingInterval opened = Some (nextHandle retried) ∧
          intervals opened = {[nextHandle retried]} ∪ intervals retried)
    as (Hra3 & Hw3 & Hso3 & Hpi3 & Hiv3).
  { by destruct (onopen_fields (set_sockets (<[n:=OPEN]> (sockets retried)) retried))
      as (? & _ & ? & ? & _ & _ & ? & ? & _). }
  clearbody opened.
  split.
  { unfold isConnected. rewrite Hw3 Hw Hso3. apply bool_decide_eq_true_2.
    apply list_lookup_insert_eq. by eapply lookup_lt_Some. }
  split; [done|].
  eexists. split; [|exact Hpi3].
  rewrite Hiv3 Hivr Hiv. set_solver.
Qed.

Lemma drop_then_recover_witness :
  reachable openClient ∧ sockets openClient !! 0 = Some OPEN ∧
  ∃ h, timeouts (step (EvClose 0) openClient) = {[h]} ∧
       isConnected (step (EvClose 0) openClient) = false.
Proof.
  split; [apply reachable_openClient|]. split; [reflexivity|].
  destruct (drop_then_recover openClient 0 OPEN reachable_openClient eq_refl
              ltac:(discriminate) ltac:(vm_compute; reflexivity))
    as (h & H1 & H2 & _).
  exists h. by split.
Defined.

Lemma idle_step e c : singleLink c → idle c → step e c = c.
Proof.
  intros Hlink [Hall Hto].
  pose proof (closed_no_interval c Hlink Hall) as Hiv.
  destruct e as [k|k payload|k|k|h|h]; simpl.
  - destruct (sockets c !! k) as [st|] eqn:Hk; [|done].
    by rewrite (Hall _ _ Hk).
  - destruct (sockets c !! k) as [st|] eqn:Hk; [|done].
    by rewrite (Hall _ _ Hk).
  - done.
  - destruct (sockets c !! k) as [st|] eqn:Hk; [|done].
    by rewrite (Hall _ _ Hk).
  - rewrite bool_decide_eq_false_2 //. rewrite Hto. set_solver.
  - rewrite bool_decide_eq_false_2 //. rewrite Hiv. set_solver.
Qed.

(** X7.  Giving up is final.  When the live socket drops with the attempt
    counter at 5, nothing is scheduled: every socket is closed, no timer is
    armed, the client is not connected, and no host event changes its state
    any more -- it does not come back by itself. *)
Theorem gives_up_for_good c k st es :
  reachable c → sockets c !! k = Some st → st ≠ CLOSED →
  reconnectAttempts c = 5%N →
  let dead := step (EvClose k) c in
  idle dead ∧ intervals dead = ∅ ∧ isConnected dead = false ∧
  scheduledDelays dead = scheduledDelays c ∧
  run es dead = dead.
Proof.
  intros Hr Hk Hst Hfive dead.
  pose proof (reachable_link c Hr) as [_ [Hs _]].
  destruct (Hs _ _ Hk Hst) as [_ Hnone].
  destruct (close_live_sockets c k st Hr Hk Hst) as [Hso Hall].
  fold dead in Hso, Hall.
  assert (reachable dead) as Hrd by (by constructor).
  pose proof (reachable_link dead Hrd) as [_ Hlinkd].
  set (c2 := emit OnClose (stopPing (set_sockets (<[k:=CLOSED]> (sockets c)) c))).
  destruct (stopPing_fields (set_sockets (<[k:=CLOSED]> (sockets c)) c))
    as (_ & _ & Hra & Hm & _ & Hto & Ho & _).
  assert (dead = c2) as Hd.
  { unfold dead. rewrite (close_live c k st) //. apply tryReconnect_stop.
    unfold c2. simpl. rewrite Hra Hm /= (reachable_max c Hr). lia. }
  assert (idle dead) as Hidle.
  { split; [done|]. by rewrite Hd /c2 /= Hto. }
  split; [done|]. split; [by apply closed_no_interval|].
  split; [by apply closed_not_connected|]. split.
  { by rewrite Hd /scheduledDelays /c2 /= Ho. }
  clearbody dead. clear -Hlinkd Hidle.
  induction es as [|e es IH]; [done|].
  unfold run in *. simpl. by rewrite idle_step.
Qed.

Lemma gives_up_for_good_witness :
  reachable fiveAttempts ∧ sockets fiveAttempts !! 5 = Some CONNECTING ∧
  reconnectAttempts fiveAttempts = 5%N ∧
  isConnected (step (EvClose 5) fiveAttempts) = false ∧
  run [EvTimeout 5; EvOpen 5; EvInterval 1; EvClose 5]
    (step (EvClose 5) fiveAttempts) = step (EvClose 5) fiveAttempts.
Proof.
  assert (reachable fiveAttempts) as H by apply reachable_run, reachable_connect.
  split; [exact H|]. split; [reflexivity|]. split; [reflexivity|].
  pose proof (gives_up_for_good fiveAttempts 5 CONNECTING
                [EvTimeout 5; EvOpen 5; EvInterval 1; EvClose 5]
                H eq_refl ltac:(discriminate) eq_refl) as T.
  split; [exact (proj1 (proj2 (proj2 T)))|exact (proj2 (proj2 (proj2 (proj2 T))))].
Defined.




End ConnectionManagerFurther.

(** * Further properties of the Streaming Session Controller *)

Section StreamingSessionControllerFurther.

Import ChatWidget.

Implicit Types (s : ChatWidget.t) (l : list ChatMessage.t) (m : ChatMessage.t).

Lemma findById_app_l mid l l' i m :
  findById mid l = Some (i, m) → findById mid (l ++ l') = Some (i, m).
Proof.
  intros (Hi & Hm & Hfirst)%findById_Some. apply findById_Some.
  split; [by apply lookup_app_l_Some|]. split; [done|].
  intros j y Hj Hlt. eapply Hfirst; [|done].
  assert (i < length l) by (by eapply lookup_lt_Some).
  rewrite lookup_app_l in Hj; [lia|done].
Qed.

(** A signal that stays inside the stream keeps the Turn found for the id
    where it is and adds its delta to the accumulator. *)
Lemma inside_signal now d mid s i m :
  inside mid d → findById mid (messages s) = Some (i, m) →
  findById mid (messages (handleWSMessage now d s)) = Some (i, m) ∧
  currentStreamContent (handleWSMessage now d s)
    = currentStreamContent s ++ delta d.
Proof.
  intros Hd Hfind. destruct d as [?|c mid'|?|?|c ev|]; try done.
  - destruct (chunk_fields now c mid' s) as (-> & -> & _). done.
  - simpl. split; [by apply findById_app_l|by rewrite app_nil_r].
  - simpl. by rewrite app_nil_r.
Qed.

Lemma inside_run (sigs : list (Z * WSIncoming)) mid s i m :
  Forall (λ p, inside mid p.2) sigs →
  findById mid (messages s) = Some (i, m) →
  findById mid (messages (handleAll sigs s)) = Some (i, m) ∧
  currentStreamContent (handleAll sigs s)
    = currentStreamContent s ++ concat ((λ p, delta p.2) <$> sigs).
Proof.
  intros Hall. revert s.
  induction Hall as [|[now d] sigs Hd _ IH]; intros s Hfind.
  - simpl. by rewrite app_nil_r.
  - rewrite handleAll_cons.
    destruct (inside_signal now d mid s i m Hd Hfind) as [Hfind1 Hc1].
    destruct (IH _ Hfind1) as [-> ->].
    split; [done|]. by rewrite Hc1 fmap_cons /= assoc.
Qed.

(** X8.  System notices and values of unknown type that arrive in the middle
    of a stream do not disturb it: after [stream_start], any mix of chunks of
    the stream, system notices and unknown values, and [stream_end], the Turn
    found for the id holds the chunks' contents, concatenated in arrival
    order, and is no longer accumulating. *)
Theorem stream_survives_notices s t0 t1 mid (sigs : list (Z * WSIncoming))
    conv srcs intent :
  Forall (λ p, inside mid p.2) sigs →
  let s' := handleAll ((t0, WSStreamStart mid) :: sigs
                         ++ [(t1, WSStreamEnd mid conv srcs intent)]) s in
  ∃ i m,
    findById mid (messages s') = Some (i, m) ∧
    ChatMessage.content m = concat ((λ p, delta p.2) <$> sigs) ∧
    ChatMessage.isStreaming m = Some false ∧
    isStreaming s' = false.
Proof.
  intros Hall s'. unfold s'. clear s'.
  rewrite handleAll_cons handleAll_app.
  set (s1 := handleWSMessage t0 (WSStreamStart mid) s).
  set (p := ChatMessage.mk mid assistant [] None None t0 (Some true)).
  destruct (findById_snoc mid (messages s) p eq_refl) as (i & m0 & Hfind & _).
  destruct (inside_run sigs mid s1 i m0 Hall Hfind) as [Hfind2 Hc2].
  set (s2 := handleAll sigs s1) in *.
  destruct (end_fields t1 mid conv srcs intent s2) as (Hm3 & Hs3 & _).
  rewrite Hfind2 Hc2 /= in Hm3.
  simpl handleAll.
  exists i, (finalized (concat ((λ p, delta p.2) <$> sigs)) (Some srcs)
               (Some intent) m0).
  rewrite Hm3. split; [|done].
  apply (findById_insert _ _ _ m0); [done|].
  by apply findById_Some in Hfind2 as (_ & ? & _).
Qed.

Lemma stream_survives_notices_witness :
  Forall (λ p : Z * WSIncoming, inside (js "m1") p.2)
    [(301%Z, WSStreamChunk (js "He") (js "m1"));
     (302%Z, WSSystem (js "agent joined") (Some agent_joined));
     (303%Z, WSOther);
     (304%Z, WSStreamChunk (js "llo") (js "m1"))] ∧
  ∃ i m,
    findById (js "m1")
      (messages (handleAll
         [(300%Z, WSStreamStart (js "m1"));
          (301%Z, WSStreamChunk (js "He") (js "m1"));
          (302%Z, WSSystem (js "agent joined") (Some agent_joined));
          (303%Z, WSOther);
          (304%Z, WSStreamChunk (js "llo") (js "m1"));
          (305%Z, WSStreamEnd (js "m1") None [] (js "faq"))] online))
      = Some (i, m) ∧
    ChatMessage.content m = js "Hello".
Proof.
  assert (Forall (λ p : Z * WSIncoming, inside (js "m1") p.2)
    [(301%Z, WSStreamChunk (js "He") (js "m1"));
     (302%Z, WSSystem (js "agent joined") (Some agent_joined));
     (303%Z, WSOther);
     (304%Z, WSStreamChunk (js "llo") (js "m1"))]) as H
    by (repeat constructor).
  split; [exact H|].
  destruct (stream_survives_notices online 300 305 (js "m1") _ None []
              (js "faq") H) as (i & m & Hf & Hc & _).
  exists i, m. split; [exact Hf|exact Hc].
Defined.

Lemma skeleton_snoc l m :
  skeleton l `prefix_of` skeleton (l ++ [m]).
Proof. unfold skeleton. rewrite fmap_app. by apply prefix_app_r. Qed.

Lemma skeleton_finalized l i m text srcs intent :
  l !! i = Some m →
  skeleton (<[i := finalized text srcs intent m]> l) = skeleton l.
Proof.
  intros Hi. unfold skeleton. rewrite list_fmap_insert /=.
  apply list_insert_id. by rewrite list_lookup_fmap Hi.
Qed.

Lemma updateStored_skeleton mid text srcs intent s :
  skeleton (messages (updateStored mid text srcs intent s)) = skeleton (messages s).
Proof.
  unfold updateStored.
  destruct (findById mid (messages s)) as [[i m]|] eqn:E; [|done].
  apply findById_Some in E as (Hi & _). simpl. by apply skeleton_finalized.
Qed.

Lemma handleWSMessage_skeleton now d s :
  skeleton (messages s) `prefix_of` skeleton (messages (handleWSMessage now d s)).
Proof.
  destruct d as [mid|c mid|mid conv srcs intent|text|c ev|].
  - apply skeleton_snoc.
  - by destruct (chunk_fields now c mid s) as (-> & _).
  - destruct (end_fields now mid conv srcs intent s) as (-> & _).
    destruct (findById mid (messages s)) as [[i m]|] eqn:E; [|done].
    apply findById_Some in E as (Hi & _). by rewrite skeleton_finalized.
  - apply skeleton_snoc.
  - apply skeleton_snoc.
  - done.
Qed.

Lemma sendMessage_skeleton now s :
  skeleton (messages s) `prefix_of` skeleton (messages (sendMessage now s)).
Proof.
  unfold sendMessage. destruct (negb _ || _); [done|].
  destruct (wsConnected _); apply skeleton_snoc.
Qed.

Lemma reveal_skeleton rs f s :
  skeleton (messages (reveal rs f s).1) = skeleton (messages s).
Proof.
  revert f s. induction rs as [|r rs IH]; intros f s; [done|]. simpl.
  unfold revealTick. case_bool_decide; simpl.
  - by rewrite updateStored_skeleton.
  - by rewrite IH.
Qed.

Lemma fallback_skeleton now r rs s :
  skeleton (messages s) `prefix_of` skeleton (messages (fallback now r rs s).1).
Proof.
  unfold fallback. destruct r as [|st|st d]; simpl; try apply skeleton_snoc.
  rewrite reveal_skeleton. apply skeleton_snoc.
Qed.

(** X9.  Turns are never removed, reordered or re-identified.  Whatever run
    of inbound signals is handled, whatever is submitted, and however a
    fallback exchange ends, the ids, roles and creation times of the Turns
    that were in the list are still in the list, at the same places; new
    Turns only come after them. *)
Theorem turns_keep_identity s :
  (∀ sigs, skeleton (messages s) `prefix_of` skeleton (messages (handleAll sigs s))) ∧
  (∀ now, skeleton (messages s) `prefix_of` skeleton (messages (sendMessage now s))) ∧
  (∀ now r rs,
     skeleton (messages s) `prefix_of` skeleton (messages (fallback now r rs s).1)).
Proof.
  split; [|split].
  - intros sigs. revert s. induction sigs as [|[now d] sigs IH]; intros s; [done|].
    rewrite handleAll_cons.
    etrans; [apply (handleWSMessage_skeleton now d)|apply IH].
  - intros now. apply sendMessage_skeleton.
  - intros now r rs. apply fallback_skeleton.
Qed.

(** X10.  Colliding ids.  When a stream arrives under an id that an older
    Turn already carries, it is the older Turn that receives the streamed
    content, the sources and the intent; the placeholder that [stream_start]
    appended stays at the end of the list, empty and still accumulating. *)
Theorem colliding_id_overwrites_older s t0 t1 mid
    (chunks : list (Z * jsstring)) conv srcs intent i m :
  findById mid (messages s) = Some (i, m) →
  let s' := handleAll ((t0, WSStreamStart mid)
                         :: ((λ p, (p.1, WSStreamChunk p.2 mid)) <$> chunks)
                         ++ [(t1, WSStreamEnd mid conv srcs intent)]) s in
  messages s' !! i
    = Some (finalized (concat (chunks.*2)) (Some srcs) (Some intent) m) ∧
  messages s' !! length (messages s)
    = Some (ChatMessage.mk mid assistant [] None None t0 (Some true)) ∧
  length (messages s') = S (length (messages s)).
Proof.
  intros Hold s'.
  destruct (live_stream_messages s t0 t1 mid chunks conv srcs intent)
    as (i' & m0 & Hfind & _ & Hm & _).
  fold s' in Hm.
  rewrite (findById_app_l _ _ _ _ _ Hold) in Hfind.
  injection Hfind as <- <-.
  apply findById_Some in Hold as (Hi & _).
  assert (i < length (messages s)) as Hlt by (by eapply lookup_lt_Some).
  rewrite Hm. split; [|split].
  - apply list_lookup_insert_eq. rewrite length_app /=. lia.
  - rewrite list_lookup_insert_ne; [lia|]. by rewrite list_lookup_middle.
  - rewrite length_insert length_app /=. lia.
Qed.

Lemma colliding_id_overwrites_older_witness :
  findById (js "welcome") (messages online)
    = Some (0, ChatMessage.mk (js "welcome") assistant (js "Hi") None None 100 None) ∧
  messages
    (handleAll ((300%Z, WSStreamStart (js "welcome"))
                  :: ((λ p : Z * jsstring, (p.1, WSStreamChunk p.2 (js "welcome")))
                        <$> [(301%Z, js "Hey")])
                  ++ [(302%Z, WSStreamEnd (js "welcome") None [] (js "faq"))])
       online) !! 1
    = Some (ChatMessage.mk (js "welcome") assistant [] None None 300 (Some true)).
Proof.
  split; [reflexivity|].
  exact (proj1 (proj2 (colliding_id_overwrites_older online 300 302 (js "welcome")
                         [(301%Z, js "Hey")] None [] (js "faq") 0 _ eq_refl))).
Defined.

(** What an accepted submission does, field by field. *)
Lemma sendMessage_accepted now s :
  accepted s = true →
  let text := trim (textareaValue s) in
  let conv := orUndefined (conversationId s) in
  let u := ChatMessage.mk (toString now) user text None None now None in
  let s' := sendMessage now s in
  messages s' = messages s ++ [u] ∧
  textareaValue s' = [] ∧ textareaDisabled s' = true ∧
  sendBtnDisabled s' = true ∧ typingIndicator s' = true ∧
  isStreaming s' = false ∧ conversationId s' = conversationId s ∧
  (if wsConnected s
   then wsSubmissions s' = wsSubmissions s ++ [(text, conv)] ∧
        restSubmissions s' = restSubmissions s
   else wsSubmissions s' = wsSubmissions s ∧
        restSubmissions s' = restSubmissions s ++ [(text, conv)]).
Proof.
  intros Hacc text conv u s'.
  apply andb_true_iff in Hacc as [Htext Hidle].
  apply negb_true_iff in Hidle.
  unfold s', sendMessage. fold text. rewrite Htext Hidle /=.
  assert (∀ x, wsConnected (disableInput (showTypingIndicator (addMessage x s)))
               = wsConnected s) as Hco by done.
  rewrite !Hco.
  destruct (wsConnected s) eqn:Hconn.
  - unfold wsConnected in Hconn.
    destruct (ws s) as [c|] eqn:Hws; [|done].
    unfold WebSocketClient.isConnected in Hconn.
    destruct (WebSocketClient.ws c) as [k|] eqn:Hk; [|done].
    do 7 (split; [done|]). split.
    + unfold wsSubmissions. simpl. rewrite Hws /=.
      unfold WebSocketClient.send. rewrite Hk Hconn /=.
      by rewrite reverse_cons.
    + done.
  - do 7 (split; [done|]). split; [done|].
    unfold restSubmissions. simpl. by rewrite ?reverse_cons ?app_nil_r.
Qed.

(** X11.  An accepted submission -- non-blank text, no stream active --
    leaves by exactly one path: over the socket when the client is connected,
    as one fallback request when it is not, never both and never neither.  It
    carries the trimmed text and the stored conversation id (none when the
    stored id is empty), appends one user Turn with that text, empties the
    textarea, disables the input and shows the typing indicator. *)
Theorem submission_takes_one_path now s :
  accepted s = true →
  let text := trim (textareaValue s) in
  let conv := orUndefined (conversationId s) in
  let s' := sendMessage now s in
  messages s'
    = messages s ++ [ChatMessage.mk (toString now) user text None None now None] ∧
  textareaValue s' = [] ∧ textareaDisabled s' = true ∧
  sendBtnDisabled s' = true ∧ typingIndicator s' = true ∧
  (if wsConnected s
   then wsSubmissions s' = wsSubmissions s ++ [(text, conv)] ∧
        restSubmissions s' = restSubmissions s
   else wsSubmissions s' = wsSubmissions s ∧
        restSubmissions s' = restSubmissions s ++ [(text, conv)]).
Proof.
  intros Hacc text conv s'.
  destruct (sendMessage_accepted now s Hacc)
    as (Hm & Hv & Hd1 & Hd2 & Hty & _ & _ & Hpath).
  by repeat split.
Qed.

Lemma submission_takes_one_path_witness :
  accepted (typeText (js " hi ") online) = true ∧
  wsSubmissions (sendMessage 200 (typeText (js " hi ") online))
    = [(js "hi", None)] ∧
  restSubmissions (sendMessage 200 (typeText (js " hi ") online)) = [].
Proof.
  split; [reflexivity|].
  exact (proj2 (proj2 (proj2 (proj2 (proj2
           (submission_takes_one_path 200 (typeText (js " hi ") online)
              eq_refl)))))).
Defined.

Lemma trimStart_split (text : jsstring) :
  ∃ a, text = a ++ trimStart text ∧ Forall (λ c, isWhiteSpace c = true) a ∧
       ∀ c, head (trimStart text) = Some c → isWhiteSpace c = false.
Proof.
  induction text as [|c text (a & Ha & Hws & Hhead)].
  - by exists [].
  - simpl. destruct (isWhiteSpace c) eqn:Hc.
    + exists (c :: a). split; [by rewrite /= -Ha|]. split; [by constructor|done].
    + exists []. split; [done|]. split; [done|].
      intros c' [= <-]. done.
Qed.

Lemma trimEnd_split (text : jsstring) :
  ∃ b, text = trimEnd text ++ b ∧ Forall (λ c, isWhiteSpace c = true) b ∧
       ∀ c, last (trimEnd text) = Some c → isWhiteSpace c = false.
Proof.
  unfold trimEnd.
  destruct (trimStart_split (reverse text)) as (a & Ha & Hws & Hhead).
  exists (reverse a). split; [|split].
  - rewrite -reverse_app -Ha. by rewrite reverse_involutive.
  - by apply Forall_reverse.
  - intros c. rewrite last_reverse. apply Hhead.
Qed.

(** X12.  What a submission stores and sends is the text of the textarea
    without the white space around it and nothing else: the text is the
    textarea value between a leading and a trailing run of white space, it is
    not empty and neither starts nor ends with white space; white space
    inside it is kept. *)
Theorem submitted_text_is_trimmed now s :
  accepted s = true →
  let text := trim (textareaValue s) in
  ChatMessage.content <$> last (messages (sendMessage now s)) = Some text ∧
  text ≠ [] ∧
  (∀ c, head text = Some c → isWhiteSpace c = false) ∧
  (∀ c, last text = Some c → isWhiteSpace c = false) ∧
  ∃ a b, textareaValue s = a ++ text ++ b ∧
         Forall (λ c, isWhiteSpace c = true) a ∧
         Forall (λ c, isWhiteSpace c = true) b.
Proof.
  intros Hacc text.
  destruct (sendMessage_accepted now s Hacc) as (Hm & _).
  pose proof Hacc as [Htext _]%andb_true_iff. fold text in Htext.
  destruct (trimStart_split (textareaValue s)) as (a & Ha & Hwa & Hhead).
  destruct (trimEnd_split (trimStart (textareaValue s))) as (b & Hb & Hwb & Hlast).
  change (trimEnd (trimStart (textareaValue s))) with text in Hb, Hlast.
  assert (text ≠ []) as Hne by (by destruct text).
  split; [by rewrite Hm last_snoc|]. split; [done|]. split; [|split; [done|]].
  - intros c Hc. apply Hhead. rewrite Hb. by destruct text.
  - exists a, b. split; [|done]. by rewrite {1}Ha {1}Hb.
Qed.

Lemma submitted_text_is_trimmed_witness :
  accepted (typeText (js "  a b  ") offline) = true ∧
  ChatMessage.content <$> last (messages (sendMessage 200 (typeText (js "  a b  ") offline)))
    = Some (js "a b").
Proof.
  split; [reflexivity|].
  exact (proj1 (submitted_text_is_trimmed 200 (typeText (js "  a b  ") offline)
                  eq_refl)).
Defined.

(** X13.  The conversation id makes the round trip.  Once a [stream_end] has
    carried a non-empty conversation id, the next accepted submission carries
    that id, over the socket or in the fallback request, whichever path it
    takes; and a [stream_end] that carries no id, or an empty one, keeps the
    id that was stored. *)
Theorem conversation_id_is_carried s t mid conv srcs intent text now :
  truthy conv = true → truthy (trim text) = true →
  let s1 := handleWSMessage t (WSStreamEnd mid (Some conv) srcs intent) s in
  let s2 := sendMessage now (typeText text s1) in
  conversationId s1 = conv ∧
  (if wsConnected s
   then last (wsSubmissions s2) = Some (trim text, Some conv)
   else last (restSubmissions s2) = Some (trim text, Some conv)) ∧
  conversationId (handleWSMessage t (WSStreamEnd mid None srcs intent) s)
    = conversationId s ∧
  conversationId (handleWSMessage t (WSStreamEnd mid (Some []) srcs intent) s)
    = conversationId s.
Proof.
  intros Hconv Htext s1 s2.
  assert (conversationId s1 = conv) as Hc1.
  { unfold s1.
    destruct (end_fields t mid (Some conv) srcs intent s) as (_ & _ & _ & _ & _ & ->).
    by rewrite /= Hconv. }
  assert (isStreaming s1 = false) as Hs1.
  { unfold s1.
    by destruct (end_fields t mid (Some conv) srcs intent s) as (_ & -> & _). }
  assert (ws s1 = ws s) as Hws.
  { unfold s1. simpl. unfold finalizeMessage, updateStored, hasElement. simpl.
    rewrite Hconv. simpl.
    destruct (findById mid (messages s)) as [[? ?]|]; simpl; by repeat case_match. }
  assert (accepted (typeText text s1) = true) as Hacc.
  { unfold accepted. simpl. by rewrite Htext Hs1. }
  pose proof (sendMessage_accepted now (typeText text s1) Hacc)
    as (_ & _ & _ & _ & _ & _ & _ & Hpath).
  cbv zeta in Hpath. fold s2 in Hpath.
  assert (wsConnected (typeText text s1) = wsConnected s) as Hco.
  { unfold wsConnected. simpl. by rewrite Hws. }
  assert (orUndefined (conversationId (typeText text s1)) = Some conv) as Hou.
  { change (conversationId (typeText text s1)) with (conversationId s1).
    by rewrite Hc1 /orUndefined Hconv. }
  rewrite Hco Hou in Hpath.
  change (textareaValue (typeText text s1)) with text in Hpath.
  split; [done|]. split.
  { destruct (wsConnected s); destruct Hpath as [E1 E2];
      rewrite ?E1 ?E2; by rewrite last_snoc. }
  split.
  - by destruct (end_fields t mid None srcs intent s) as (_ & _ & _ & _ & _ & ->).
  - by destruct (end_fields t mid (Some []) srcs intent s)
      as (_ & _ & _ & _ & _ & ->).
Qed.

Lemma conversation_id_is_carried_witness :
  truthy (js "c7") = true ∧ truthy (trim (js "more")) = true ∧
  last (wsSubmissions
          (sendMessage 400
             (typeText (js "more")
                (handleWSMessage 305 (WSStreamEnd (js "m1") (Some (js "c7")) []
                                        (js "faq")) streaming))))
    = Some (js "more", Some (js "c7")).
Proof.
  split; [reflexivity|]. split; [reflexivity|].
  exact (proj1 (proj2 (conversation_id_is_carried streaming 305 (js "m1")
                         (js "c7") [] (js "faq") (js "more") 400
                         eq_refl eq_refl))).
Defined.

Lemma keepsLock_signal now d s :
  keepsLock d →
  textareaDisabled (handleWSMessage now d s) = textareaDisabled s ∧
  sendBtnDisabled (handleWSMessage now d s) = sendBtnDisabled s.
Proof.
  intros Hd. destruct d as [mid|c mid|?|?|c ev|]; try done.
  by destruct (chunk_fields now c mid s) as (_ & _ & _ & _ & -> & -> & _).
Qed.

(** X14.  On the live path only [stream_end] and [error] give the input
    back.  Whatever other signals arrive -- [stream_start], chunks, system
    notices, unknown values -- the textarea and the send button stay as they
    were; in particular, after an accepted submission they stay disabled
    until a [stream_end] or an [error] arrives. *)
Theorem input_stays_locked (sigs : list (Z * WSIncoming)) s :
  Forall (λ p, keepsLock p.2) sigs →
  textareaDisabled (handleAll sigs s) = textareaDisabled s ∧
  sendBtnDisabled (handleAll sigs s) = sendBtnDisabled s ∧
  ∀ now, accepted s = true →
    textareaDisabled (handleAll sigs (sendMessage now s)) = true ∧
    sendBtnDisabled (handleAll sigs (sendMessage now s)) = true.
Proof.
  intros Hall.
  assert (∀ s0, textareaDisabled (handleAll sigs s0) = textareaDisabled s0 ∧
                sendBtnDisabled (handleAll sigs s0) = sendBtnDisabled s0) as Hkeep.
  { induction Hall as [|[now d] sigs Hd _ IH]; intros s0; [done|].
    rewrite handleAll_cons.
    destruct (IH (handleWSMessage now d s0)) as [-> ->].
    by apply keepsLock_signal. }
  destruct (Hkeep s) as [-> ->]. split; [done|]. split; [done|].
  intros now Hacc.
  destruct (Hkeep (sendMessage now s)) as [-> ->].
  by destruct (sendMessage_accepted now s Hacc) as (_ & _ & -> & -> & _).
Qed.

Lemma input_stays_locked_witness :
  Forall (λ p : Z * WSIncoming, keepsLock p.2)
    [(300%Z, WSStreamStart (js "m1"));
     (301%Z, WSStreamChunk (js "He") (js "m1"));
     (302%Z, WSSystem (js "agent joined") (Some agent_joined))] ∧
  textareaDisabled
    (handleAll [(300%Z, WSStreamStart (js "m1"));
                (301%Z, WSStreamChunk (js "He") (js "m1"));
                (302%Z, WSSystem (js "agent joined") (Some agent_joined))]
       (sendMessage 200 (typeText (js "hi") online))) = true.
Proof.
  assert (Forall (λ p : Z * WSIncoming, keepsLock p.2)
    [(300%Z, WSStreamStart (js "m1"));
     (301%Z, WSStreamChunk (js "He") (js "m1"));
     (302%Z, WSSystem (js "agent joined") (Some agent_joined))]) as H
    by (repeat constructor).
  split; [exact H|].
  exact (proj1 (proj2 (proj2 (input_stays_locked _ (typeText (js "hi") online) H))
                  200%Z eq_refl)).
Defined.

Lemma set_ws_same s : set_ws (ws s) s = s.
Proof. by destruct s. Qed.

Lemma set_ws_twice w w' s : set_ws w (set_ws w' s) = set_ws w s.
Proof. done. Qed.

(** [handleWSMessage] neither reads nor writes the client. *)
Lemma handleWSMessage_set_ws now d w s :
  handleWSMessage now d (set_ws w s) = set_ws w (handleWSMessage now d s).
Proof.
  destruct d as [mid|c mid|mid conv srcs intent|text|c ev|]; try done.
  - simpl. unfold updateStreamingMessage, hasElement. simpl.
    by destruct (findById mid (messages s)).
  - simpl. unfold finalizeMessage, updateStored, hasElement. simpl.
    destruct (truthyOpt conv); simpl;
      destruct (findById mid (messages s)) as [[i m]|]; simpl;
      by repeat case_match.
Qed.

Lemma handleAll_set_ws sigs w s :
  handleAll sigs (set_ws w s) = set_ws w (handleAll sigs s).
Proof.
  revert s. induction sigs as [|[now d] sigs IH]; intros s; [done|].
  by rewrite !handleAll_cons handleWSMessage_set_ws IH.
Qed.

(** X15.  From the socket to the Turn list.  The messages that arrive on the
    open socket of the widget's client act on the widget exactly as the
    well-formed ones among them handled in arrival order; a payload that does
    not parse changes nothing in the widget, and the client only records the
    hand-overs. *)
Theorem socket_messages_reach_widget s c k (ps : list (Z * option WSIncoming)) :
  ws s = Some c → WebSocketClient.sockets c !! k = Some WebSocketClient.OPEN →
  hostEvents ((λ p, (p.1, WebSocketClient.EvMessage k p.2)) <$> ps) s
    = set_ws (Some (WebSocketClient.run (WebSocketClient.EvMessage k <$> ps.*2) c))
        (handleAll (omap (λ p, (λ d, (p.1, d)) <$> p.2) ps) s).
Proof.
  revert s c. induction ps as [|[now [d|]] ps IH]; intros s c Hws Hk.
  - simpl. by rewrite -Hws set_ws_same.
  - assert (hostEvent now (WebSocketClient.EvMessage k (Some d)) s
            = set_ws (Some (WebSocketClient.emit (WebSocketClient.OnMessage d) c))
                (handleWSMessage now d s)) as Hone.
    { unfold hostEvent. rewrite Hws /WebSocketClient.isOpen.
      rewrite (bool_decide_eq_true_2 _ Hk) /= Hk /=.
      by rewrite handleWSMessage_set_ws. }
    assert (WebSocketClient.step (WebSocketClient.EvMessage k (Some d)) c
            = WebSocketClient.emit (WebSocketClient.OnMessage d) c) as Hstep.
    { simpl. by rewrite Hk. }
    rewrite !fmap_cons.
    change (hostEvents (?x :: ?l) s) with (hostEvents l (hostEvent x.1 x.2 s)).
    change (WebSocketClient.run (?e :: ?es) c)
      with (WebSocketClient.run es (WebSocketClient.step e c)).
    cbn [fst snd]. rewrite Hone Hstep.
    rewrite (IH _ (WebSocketClient.emit (WebSocketClient.OnMessage d) c)) //.
    change (omap ?f ((now, Some d) :: ps)) with ((now, d) :: omap f ps).
    by rewrite handleAll_cons handleAll_set_ws set_ws_twice.
  - assert (hostEvent now (WebSocketClient.EvMessage k None) s = s) as Hone.
    { unfold hostEvent. rewrite Hws /= Hk /=. by rewrite -Hws set_ws_same. }
    assert (WebSocketClient.step (WebSocketClient.EvMessage k None) c = c) as Hstep.
    { simpl. by rewrite Hk. }
    rewrite !fmap_cons.
    change (hostEvents (?x :: ?l) s) with (hostEvents l (hostEvent x.1 x.2 s)).
    change (WebSocketClient.run (?e :: ?es) c)
      with (WebSocketClient.run es (WebSocketClient.step e c)).
    cbn [fst snd]. rewrite Hone Hstep.
    by rewrite (IH _ c).
Qed.

Lemma socket_messages_reach_widget_witness :
  ws online = Some WebSocketClient.openClient ∧
  WebSocketClient.sockets WebSocketClient.openClient !! 0
    = Some WebSocketClient.OPEN ∧
  contentOf (js "m1")
    (hostEvents
       ((λ p : Z * option WSIncoming, (p.1, WebSocketClient.EvMessage 0 p.2))
          <$> [(300%Z, Some (WSStreamStart (js "m1")));
               (301%Z, Some (WSStreamChunk (js "He") (js "m1")));
               (302%Z, None);
               (303%Z, Some (WSStreamChunk (js "llo") (js "m1")));
               (304%Z, Some (WSStreamEnd (js "m1") None [] (js "faq")))])
       online)
    = Some (js "Hello").
Proof.
  split; [reflexivity|]. split; [reflexivity|].
  rewrite (socket_messages_reach_widget online WebSocketClient.openClient 0
             _ eq_refl eq_refl).
  reflexivity.
Defined.



(** How many times the reveal timer writes a prefix before it finishes. *)
Lemma reveal_count rs f s :
  let len := Z.of_nat (length (RestData.content (data f))) in
  Forall unitDraw rs → (i f ≤ len)%Z →
  (len - i f < 3 * Z.of_nat (length rs))%Z →
  ∃ k : nat,
    length (log (reveal rs f s).1) = S (k + length (log s)) ∧
    (k = 0 ∨ (i f + 3 * Z.of_nat k < len)%Z) ∧
    (len ≤ i f + 8 * (Z.of_nat k + 1))%Z.
Proof.
  intros len Hrs. revert f s len.
  induction Hrs as [|r rs Hr Hrs IH]; intros f s len Hle Hlen.
  { simpl in Hlen. lia. }
  pose proof (chunkSize_bounds r Hr) as Hcs.
  simpl. unfold revealTick. fold len.
  case_bool_decide as Hend.
  - exists 0. split; [|lia]. simpl.
    by destruct (updateStored_fields (msgId f) (RestData.content (data f))
                   (RestData.sources (data f)) (RestData.intent (data f))
                   (emit (DomRender (msgId f) (RestData.content (data f))) s))
      as (_ & -> & _).
  - set (f' := {| msgId := msgId f; data := data f; i := (i f + chunkSize r)%Z |}).
    set (s1 := emit (DomSetText (msgId f)
                       (take (Z.to_nat (i f + chunkSize r))
                          (RestData.content (data f)))) s).
    destruct (IH f' s1) as (k & Hk & Hlow & Hup).
    { simpl. fold len. lia. }
    { simpl. fold len. simpl in Hlen. lia. }
    simpl in Hk, Hlow, Hup. fold len in Hlow, Hup.
    exists (S k). split; [rewrite Hk /=; lia|]. split; [right|]; lia.
Qed.

(** X17.  How long the simulated typing takes.  For a response text of [n]
    code units the timer writes [k] prefixes and then the full text, that is
    [k + 1] ticks of 20 ms, with [n ≤ 8 (k + 1)] and, unless [k = 0],
    [3 k < n]: between an eighth and a third of the length, so the reveal is
    never faster than [n / 8] ticks and never slower than [n / 3 + 1]. *)
Theorem reveal_takes_bounded_ticks s now status d rs :
  let n := length (RestData.content d) in
  Forall unitDraw rs → n < 3 * length rs →
  ∃ k, lifecycle k (phases (since s (fallback now (Parsed status d) rs s).1)) ∧
       (k = 0 ∨ 3 * k < n) ∧ n ≤ 8 * (k + 1).
Proof.
  intros n Hrs Hlen.
  destruct (fallback_runs s now status d rs Hrs Hlen)
    as (ns & s' & j & m0 & Hfb & _ & _ & _ & Hsince & _).
  set (p := ChatMessage.mk (placeholderId now d) assistant [] None None now
              (Some true)) in *.
  set (s0 := addMessage p (set_conversationId (RestData.conversation_id d)
                             (removeTypingIndicator s))).
  set (f0 := {| msgId := placeholderId now d; data := d; i := 0 |}).
  assert (fallback now (Parsed status d) rs s = reveal rs f0 s0) as Hrev by done.
  destruct (reveal_count rs f0 s0 Hrs) as (k & Hk & Hlow & Hup);
    [unfold f0; cbn [i data]; lia..|].
  rewrite -Hrev Hfb /= in Hk. cbn [i data f0] in Hlow, Hup. fold n in Hlow, Hup.
  rewrite Hfb /=.
  assert (length ns = k) as Hns.
  { apply (f_equal length) in Hsince.
    rewrite /since length_reverse length_take Hk /= length_app length_fmap /= in Hsince.
    lia. }
  exists k. split; [|lia].
  unfold lifecycle. rewrite Hsince -Hns.
  change (DomAppend p :: ?l) with ([DomAppend p] ++ l).
  rewrite !phases_app phases_updates //.
Qed.

Lemma reveal_takes_bounded_ticks_witness :
  Forall unitDraw [1 # 2; 0; 9 # 10; 1 # 3]%Q ∧
  ∃ k, lifecycle k
         (phases (since (sendMessage 200 (typeText (js "hi") offline))
                    (fallback 300 (Parsed 200 helloWorld)
                       [1 # 2; 0; 9 # 10; 1 # 3]%Q
                       (sendMessage 200 (typeText (js "hi") offline))).1)) ∧
       (k = 0 ∨ 3 * k < 11) ∧ 11 ≤ 8 * (k + 1).
Proof.
  assert (Forall unitDraw [1 # 2; 0; 9 # 10; 1 # 3]%Q) as H
    by (repeat constructor; by compute).
  split; [exact H|].
  exact (reveal_takes_bounded_ticks
           (sendMessage 200 (typeText (js "hi") offline)) 300 200 helloWorld
           [1 # 2; 0; 9 # 10; 1 # 3]%Q H ltac:(vm_compute; lia)).
Defined.

End StreamingSessionControllerFurther.

(** * Properties of the panel and of the escaping step *)

Section PanelAndEscaping.

Import View Markdown.

Lemma click_inSync b v : inSync v → inSync (click b v).
Proof.
  intros (H1 & H2 & H3 & H4 & H5).
  destruct v as [o f co cf to ex sh]. simpl in *. subst.
  by destruct b, o, f.
Qed.

(** X18.  Whatever buttons are clicked, in whatever order, the page shows
    what the fields say -- the [open] and [fullscreen] classes and the two
    icons follow [isOpen] and [isFullscreen] -- and closing the panel always
    leaves fullscreen: after a click on the trigger or on the close button
    the panel is never both closed and fullscreen. *)
Theorem panel_stays_consistent (bs : list Click) :
  let v := clicks bs initial in
  inSync v ∧
  isOpen (toggle v) = negb (isOpen v) ∧
  (isOpen (toggle v) = false →
     isFullscreen (toggle v) = false ∧ containerFullscreen (toggle v) = false ∧
     shrinkShown (toggle v) = false ∧ expandShown (toggle v) = true).
Proof.
  intros v.
  assert (inSync v) as Hsync.
  { unfold v, clicks. generalize initial, (conj eq_refl (conj eq_refl (conj eq_refl
      (conj eq_refl eq_refl))) : inSync initial).
    induction bs as [|b bs IH]; intros v0 H0; [done|].
    simpl. apply IH. by apply click_inSync. }
  split; [done|].
  destruct Hsync as (H1 & H2 & H3 & H4 & H5).
  destruct v as [o f co cf to ex sh]. simpl in *. subst.
  by destruct o, f.
Qed.

Lemma replaceAll_cons c by_ x s :
  replaceAll c by_ (x :: s)
    = (if (x =? c)%N then by_ else [x]) ++ replaceAll c by_ s.
Proof. done. Qed.

Lemma replaceAll_app c by_ s1 s2 :
  replaceAll c by_ (s1 ++ s2) = replaceAll c by_ s1 ++ replaceAll c by_ s2.
Proof. unfold replaceAll. apply bind_app. Qed.

Lemma escapeHtml_cons x text :
  escapeHtml (x :: text) = escapeUnit x ++ escapeHtml text.
Proof.
  unfold escapeHtml, escapeUnit.
  rewrite (replaceAll_cons 38).
  destruct (x =? 38)%N eqn:E38.
  { by rewrite !replaceAll_app. }
  rewrite (replaceAll_app 60) (replaceAll_cons 60 _ x []).
  destruct (x =? 60)%N eqn:E60.
  { by rewrite !replaceAll_app. }
  rewrite (replaceAll_app 62) (replaceAll_cons 62 _ x []).
  by destruct (x =? 62)%N.
Qed.

Lemma escapeUnit_head x :
  ∃ y rest, escapeUnit x = y :: rest ∧ y ≠ 60%N ∧ y ≠ 62%N ∧
            Forall (λ z, z ≠ 60%N ∧ z ≠ 62%N) rest ∧
            (y = 38%N → ∃ z rest', rest = z :: rest').
Proof.
  unfold escapeUnit.
  destruct (x =? 38)%N eqn:E38; [|destruct (x =? 60)%N eqn:E60;
    [|destruct (x =? 62)%N eqn:E62]].
  - eexists _, _. split; [reflexivity|]. repeat split; try done.
    + repeat constructor; done.
    + intros _. by eexists _, _.
  - eexists _, _. split; [reflexivity|]. repeat split; try done.
    + repeat constructor; done.
    + intros _. by eexists _, _.
  - eexists _, _. split; [reflexivity|]. repeat split; try done.
    + repeat constructor; done.
    + intros _. by eexists _, _.
  - apply N.eqb_neq in E38, E60, E62.
    exists x, []. repeat split; try done.
Qed.

Lemma escapeUnit_inj x1 x2 r1 r2 :
  escapeUnit x1 ++ r1 = escapeUnit x2 ++ r2 → x1 = x2 ∧ r1 = r2.
Proof.
  unfold escapeUnit.
  destruct (x1 =? 38)%N eqn:A38; [apply N.eqb_eq in A38|apply N.eqb_neq in A38];
  (destruct (x1 =? 60)%N eqn:A60; [apply N.eqb_eq in A60|apply N.eqb_neq in A60]);
  (destruct (x1 =? 62)%N eqn:A62; [apply N.eqb_eq in A62|apply N.eqb_neq in A62]);
  (destruct (x2 =? 38)%N eqn:B38; [apply N.eqb_eq in B38|apply N.eqb_neq in B38]);
  (destruct (x2 =? 60)%N eqn:B60; [apply N.eqb_eq in B60|apply N.eqb_neq in B60]);
  (destruct (x2 =? 62)%N eqn:B62; [apply N.eqb_eq in B62|apply N.eqb_neq in B62]);
  subst; try done; simpl; intros [=]; subst; by try done.
Qed.

(** X19.  The escaping step of [renderMarkdown].  The three replacements in a
    row have the effect of one pass that turns each [&], [<] and [>] into its
    entity and leaves every other code unit alone -- the entities written by
    an earlier replacement are not escaped again; the result contains no [<]
    and no [>]; and two different texts never escape to the same string. *)
Theorem escaping_is_one_pass (text : jsstring) :
  escapeHtml text = (text ≫= escapeUnit) ∧
  (60%N ∉ escapeHtml text) ∧ (62%N ∉ escapeHtml text) ∧
  ∀ text', escapeHtml text' = escapeHtml text → text' = text.
Proof.
  split; [|split; [|split]].
  - induction text as [|x text IH]; [done|].
    by rewrite escapeHtml_cons IH.
  - induction text as [|x text IH]; [by apply not_elem_of_nil|].
    rewrite escapeHtml_cons.
    destruct (escapeUnit_head x) as (y & rest & -> & Hy & _ & Hrest & _).
    rewrite Forall_forall in Hrest.
    intros [[E|Hin]%elem_of_cons|Hin]%elem_of_app; [done| |done].
    by destruct (Hrest _ Hin).
  - induction text as [|x text IH]; [by apply not_elem_of_nil|].
    rewrite escapeHtml_cons.
    destruct (escapeUnit_head x) as (y & rest & -> & _ & Hy & Hrest & _).
    rewrite Forall_forall in Hrest.
    intros [[E|Hin]%elem_of_cons|Hin]%elem_of_app; [done| |done].
    by destruct (Hrest _ Hin).
  - induction text as [|x text IH]; intros [|x' text'].
    + done.
    + rewrite escapeHtml_cons.
      destruct (escapeUnit_head x') as (y & rest & -> & _). done.
    + rewrite escapeHtml_cons.
      destruct (escapeUnit_head x) as (y & rest & -> & _). done.
    + rewrite !escapeHtml_cons. intros [-> E]%escapeUnit_inj.
      by rewrite (IH _ E).
Qed.

End PanelAndEscaping.
